(** * Document viewport and citation bridge of the PDF reader front end

    A shallow embedding of [PDFViewer.jsx], [ChatMessage.jsx] and the
    citation-click bridge of [App.jsx], followed by the properties of the
    highlight life cycle, the coordinate mapping, the scroll tracker and the
    citation-marker parser.  Around them: the zoom buttons and the loading
    of the document, the chat input of [ChatPanel.jsx], the hook of
    [useChat.js], the API key form of [App.jsx], the outcome of a request in
    [api.js] and the upload of [FileUpload.jsx].

    Conventions of the embedding:
    - a JavaScript number is an element of a type [num] of class [JsNumber];
      the instance [float_number] is IEEE 754 binary64, the arithmetic of
      the language, and the one every statement about the program is made
      in or holds for; [exact_number], exact rational arithmetic, is not the
      language's: it serves to say what the formulas of the mapping give
      when no operation rounds, and a statement made there says so;
    - page indices (0-based) and page numbers (1-based) are [nat];
    - the [refs] objects are finite maps from integer keys to elements, a
      [null] entry being [Some None];
    - React state and the browser's timer queue and clock are fields of one
      record threaded through every handler. *)

From Stdlib Require Import ZArith QArith PrimFloat Uint63 Ascii Lia.
From stdpp Require Import gmap strings list pretty.

Local Open Scope Z_scope.

(** ** JavaScript numbers *)

Class JsNumber (num : Type) := {
  num_add : num -> num -> num;
  num_sub : num -> num -> num;
  num_mul : num -> num -> num;
  num_div : num -> num -> num;
  num_le : num -> num -> bool;
  num_ge : num -> num -> bool;
  num_of_Z : Z -> num
}.

Declare Scope js_scope.
Delimit Scope js_scope with js.
Infix "+" := num_add : js_scope.
Infix "-" := num_sub : js_scope.
Infix "*" := num_mul : js_scope.
Infix "/" := num_div : js_scope.
Infix "<=?" := num_le : js_scope.
Infix ">=?" := num_ge : js_scope.

(** Conversion of an integer literal to binary64. *)
Definition float_of_Z (z : Z) : float :=
  match z with
  | Z0 => PrimFloat.zero
  | Zpos _ => PrimFloat.of_uint63 (Uint63.of_Z z)
  | Zneg p => PrimFloat.opp (PrimFloat.of_uint63 (Uint63.of_Z (Zpos p)))
  end.

(** IEEE 754 binary64 with round-to-nearest-even, the language's numbers. *)
#[export] Instance float_number : JsNumber float := {|
  num_add := PrimFloat.add;
  num_sub := PrimFloat.sub;
  num_mul := PrimFloat.mul;
  num_div := PrimFloat.div;
  num_le := PrimFloat.leb;
  num_ge := fun a b => PrimFloat.leb b a;
  num_of_Z := float_of_Z
|}.

(** Exact arithmetic on rationals.  It is not the arithmetic of the
    language: binary64 rounds after every operation, and a property proved
    at this instance alone need not hold of the program (the round trip of
    the pixel mapping does not).  It is used to read the program's formulas
    without rounding, next to a statement that holds in binary64. *)
#[export] Instance exact_number : JsNumber Q := {|
  num_add := Qplus;
  num_sub := Qminus;
  num_mul := Qmult;
  num_div := Qdiv;
  num_le := Qle_bool;
  num_ge := fun a b => Qle_bool b a;
  num_of_Z := inject_Z
|}.

(** ** Objects with integer keys *)

(** [Object.entries] lists integer-like keys in ascending numeric order.
    The [refs] objects of the viewer only ever receive such keys. *)
Definition keys_bound {V : Type} (m : gmap nat V) : nat :=
  map_fold (fun k _ b => Nat.max (S k) b) 0%nat m.

Definition Object_entries {V : Type} (m : gmap nat V) : list (nat * V) :=
  omap (fun k => pair k <$> m !! k) (seq 0 (keys_bound m)).

(** ** PDFViewer.jsx *)

Module PDFViewer.
Section WithNumbers.
Context {num : Type} `{JsNumber num}.

(** [{x0, y0, x1, y1}] in source-document units. *)
Record BoundingBox := mkBBox { x0 : num; y0 : num; x1 : num; y1 : num }.

Record Highlight := mkHighlight {
  id : string;
  page : nat;
  bbox : BoundingBox;
  sourcePageWidth : num;
  sourcePageHeight : num
}.

(** The attributes of a [<canvas>] element the viewer reads. *)
Record Canvas := mkCanvas { width : num; height : num }.

(** A page wrapper [<div>]: [top] is [getBoundingClientRect().top]. *)
Record PageElement := mkPageElement { top : num }.

(** The scroll container: [container_top] is its
    [getBoundingClientRect().top]. *)
Record Container := mkContainer {
  scrollTop : num;
  clientHeight : num;
  container_top : num
}.

(** The only closure ever handed to [setTimeout]:
    [() => { setHighlights([]); }]. *)
Inductive TimerCallback := ClearHighlightsCallback.

Record Timer := mkTimer { due : Z; callback : TimerCallback }.

Record Viewer := mkViewer {
  highlights : list Highlight;
  currentPage : nat;
  renderedPages : list nat;
  isLoading : bool;
  pageRefs : gmap nat (option PageElement);
  canvasRefs : gmap nat (option Canvas);
  (* the browser: clock in milliseconds, timer queue, scroll requests *)
  now : Z;
  timers : list Timer;
  scrollRequests : list nat
}.

Definition setHighlights (hs : list Highlight) (s : Viewer) : Viewer :=
  mkViewer hs (currentPage s) (renderedPages s) (isLoading s) (pageRefs s)
    (canvasRefs s) (now s) (timers s) (scrollRequests s).

Definition setCurrentPage (p : nat) (s : Viewer) : Viewer :=
  mkViewer (highlights s) p (renderedPages s) (isLoading s) (pageRefs s)
    (canvasRefs s) (now s) (timers s) (scrollRequests s).

Definition setCanvasRef (pageNum : nat) (el : option Canvas) (s : Viewer)
  : Viewer :=
  mkViewer (highlights s) (currentPage s) (renderedPages s) (isLoading s)
    (pageRefs s) (<[pageNum := el]> (canvasRefs s)) (now s) (timers s)
    (scrollRequests s).

Definition setClock (t : Z) (s : Viewer) : Viewer :=
  mkViewer (highlights s) (currentPage s) (renderedPages s) (isLoading s)
    (pageRefs s) (canvasRefs s) t (timers s) (scrollRequests s).

Definition setTimers (q : list Timer) (s : Viewer) : Viewer :=
  mkViewer (highlights s) (currentPage s) (renderedPages s) (isLoading s)
    (pageRefs s) (canvasRefs s) (now s) q (scrollRequests s).

(** [pageElement.scrollIntoView(...)] on the wrapper of page [p]. *)
Definition scrollIntoView (p : nat) (s : Viewer) : Viewer :=
  mkViewer (highlights s) (currentPage s) (renderedPages s) (isLoading s)
    (pageRefs s) (canvasRefs s) (now s) (timers s) (scrollRequests s ++ [p]).

(** The timer queue is kept in firing order: earliest deadline first, and
    among equal deadlines the timer registered first. *)
Fixpoint enqueue (tm : Timer) (q : list Timer) : list Timer :=
  match q with
  | [] => [tm]
  | x :: q' => if due x <=? due tm then x :: enqueue tm q' else tm :: q
  end.

Definition setTimeout (cb : TimerCallback) (delay : Z) (s : Viewer) : Viewer :=
  setTimers (enqueue (mkTimer (now s + delay) cb) (timers s)) s.

Definition runCallback (cb : TimerCallback) (s : Viewer) : Viewer :=
  match cb with
  | ClearHighlightsCallback => setHighlights [] s
  end.

(** [highlight-${Date.now()}-${index}] *)
Definition highlightId (t : Z) (index : nat) : string :=
  "highlight-" +:+ pretty t +:+ "-" +:+ pretty index.

Definition newHighlights (t : Z) (pageNumber : nat)
    (boundingBoxes : list BoundingBox) (pageWidth pageHeight : num)
  : list Highlight :=
  imap (fun index b => mkHighlight (highlightId t index) pageNumber b
                         pageWidth pageHeight) boundingBoxes.

Definition highlightAndScroll (pageNumber : nat)
    (boundingBoxes : list BoundingBox) (pageWidth pageHeight : num)
    (s : Viewer) : Viewer :=
  let s := setHighlights [] s in
  let batch := newHighlights (now s) pageNumber boundingBoxes
                 pageWidth pageHeight in
  let s := setHighlights batch s in
  let s := match pageRefs s !! pageNumber with
           | Some (Some _) => scrollIntoView pageNumber s
           | _ => s
           end in
  setTimeout ClearHighlightsCallback 8000 s.

Definition clearHighlights (s : Viewer) : Viewer := setHighlights [] s.

(** The event loop lets the clock run up to [t], firing every timer whose
    deadline has been reached, in queue order. *)
Fixpoint fireDue (t : Z) (q : list Timer) (s : Viewer) : Viewer :=
  match q with
  | [] => setTimers [] s
  | tm :: q' =>
      if due tm <=? t
      then fireDue t q'
             (runCallback (callback tm)
                (setTimers q' (setClock (Z.max (now s) (due tm)) s)))
      else setTimers q s
  end.

Definition advanceTo (t : Z) (s : Viewer) : Viewer :=
  let s := fireDue t (timers s) s in
  setClock (Z.max (now s) t) s.

(** The ref callback of a page's [<canvas>]:
    [canvasRefs.current[pageNum] = el]. *)
Definition attachCanvas (pageNum : nat) (el : option Canvas) (s : Viewer)
  : Viewer := setCanvasRef pageNum el s.

(** Completion of [renderPage(pageNum)]: the canvas, if attached, takes the
    size of the viewport computed by PDF.js, here [w] by [h]. *)
Definition renderPageDone (pageNum : nat) (w h : num) (s : Viewer) : Viewer :=
  match canvasRefs s !! pageNum with
  | Some (Some _) => setCanvasRef pageNum (Some (mkCanvas w h)) s
  | _ => s
  end.

(** *** Scroll tracking *)

Definition inTopHalf (container : Container) (element : PageElement) : bool :=
  (top element >=? container_top container)%js
  && (top element <=?
        container_top container + clientHeight container / num_of_Z 2)%js.

(** The [for ... of Object.entries(pageRefs.current)] loop with its
    [break]: the key of the first entry that passes the test. *)
Fixpoint firstInTopHalf (container : Container)
    (entries : list (nat * option PageElement)) : option nat :=
  match entries with
  | [] => None
  | (pageNum, element) :: rest =>
      match element with
      | Some el =>
          if inTopHalf container el then Some pageNum
          else firstInTopHalf container rest
      | None => firstInTopHalf container rest
      end
  end.

Definition handleScroll (container : Container) (s : Viewer) : Viewer :=
  match firstInTopHalf container (Object_entries (pageRefs s)) with
  | Some pageNum => setCurrentPage (pageNum + 1) s
  | None => s
  end.

(** *** Highlight geometry *)

(** The geometric fields of the style object, in CSS pixels; the other
    fields are constants. *)
Record Style := mkStyle {
  left : num;
  top_px : num;
  width_px : num;
  height_px : num
}.

(** Lines 164-187: the arithmetic of [getHighlightStyle] once the canvas
    is known. *)
Definition highlightRect (canvasWidth canvasHeight : num) (h : Highlight)
  : Style :=
  let b := bbox h in
  let scaleX := (canvasWidth / sourcePageWidth h)%js in
  let scaleY := (canvasHeight / sourcePageHeight h)%js in
  mkStyle (x0 b * scaleX)%js (y0 b * scaleY)%js
          ((x1 b - x0 b) * scaleX)%js ((y1 b - y0 b) * scaleY)%js.

(** [None] is the [null] return. *)
Definition getHighlightStyle (s : Viewer) (h : Highlight) : option Style :=
  match canvasRefs s !! (page h + 1)%nat with
  | Some (Some canvas) => Some (highlightRect (width canvas) (height canvas) h)
  | _ => None
  end.

(** *** Rendered overlays *)

Record Overlay := mkOverlay { key : string; style : Style }.

(** [highlights.filter(h => h.page === pageNum - 1).map(...)]; on natural
    numbers [h.page === pageNum - 1] is [h.page + 1 = pageNum]. *)
Definition pageOverlays (s : Viewer) (pageNum : nat) : list (option Overlay) :=
  map (fun h => mkOverlay (id h) <$> getHighlightStyle s h)
      (filter (fun h => (page h + 1)%nat = pageNum) (highlights s)).

Inductive PagesContainer :=
| Loading
| Pages (ps : list (nat * list (option Overlay))).

Definition renderPages (s : Viewer) : PagesContainer :=
  if isLoading s then Loading
  else Pages (map (fun pageNum => (pageNum, pageOverlays s pageNum))
                  (renderedPages s)).

(** *** The viewer as a transition system *)

(** What the component shows before any interaction: the [useState]
    defaults, empty refs, an empty timer queue, the clock at [t0]. *)
Definition initialViewer (t0 : Z) : Viewer :=
  mkViewer [] 1%nat [] true ∅ ∅ t0 [] [].

(** What can happen to a mounted viewer. *)
Inductive Event :=
| Navigate (pageNumber : nat) (bs : list BoundingBox) (w h : num)
| Clear
| Elapse (t : Z)
| Scrolled (container : Container)
| CanvasAttached (pageNum : nat) (el : option Canvas)
| PageRendered (pageNum : nat) (w h : num).

Definition step (e : Event) (s : Viewer) : Viewer :=
  match e with
  | Navigate p bs w h => highlightAndScroll p bs w h s
  | Clear => clearHighlights s
  | Elapse t => advanceTo t s
  | Scrolled c => handleScroll c s
  | CanvasAttached n el => attachCanvas n el s
  | PageRendered n w h => renderPageDone n w h s
  end.

Definition run (es : list Event) (s : Viewer) : Viewer := foldl (fun s e => step e s) s es.

(** The highlight set is one batch: the output of one call. *)
Definition singleBatch (hs : list Highlight) : Prop :=
  exists t p bs w h, hs = newHighlights t p bs w h.

(** *** The inverse mapping of the design's round-trip property *)

(** The design speaks of mapping a pixel rectangle back "using inverse scale
    factors"; the component has no such function.  This one follows the
    design's words: the factors are [sourceWidth / renderedWidth] and
    [sourceHeight / renderedHeight]. *)
Definition fromPixelRect (st : Style)
    (sourceWidth sourceHeight renderedWidth renderedHeight : num)
  : BoundingBox :=
  let invX := (sourceWidth / renderedWidth)%js in
  let invY := (sourceHeight / renderedHeight)%js in
  mkBBox (left st * invX)%js (top_px st * invY)%js
         ((left st + width_px st) * invX)%js
         ((top_px st + height_px st) * invY)%js.

End WithNumbers.
End PDFViewer.

(** ** ChatMessage.jsx *)

(** Message text is a [string] of bytes, the UTF-8 form of the JavaScript
    string; every pattern below is made of characters whose encoding never
    occurs inside that of another character. *)

Module ChatMessage.

Local Open Scope string_scope.

Definition is_digit (c : ascii) : bool :=
  (("0" <=? c) && (c <=? "9"))%char.

(** The longest run of digits at the start of [s], and what follows it. *)
Fixpoint take_digits (s : string) : string * string :=
  match s with
  | String c s' =>
      if is_digit c
      then let (ds, rest) := take_digits s' in (String c ds, rest)
      else ("", s)
  | "" => ("", "")
  end.

(** [\[\d+\]] matched at the start of [s]: the digits and the rest. *)
Definition digits_marker_at (s : string) : option (string * string) :=
  match s with
  | String "[" s1 =>
      match take_digits s1 with
      | (String d ds, String "]" rest) => Some (String d ds, rest)
      | _ => None
      end
  | _ => None
  end.

Definition marker_text (digits : string) : string := "[" +:+ digits +:+ "]".

(** The separator of [message.content.split(/(\[\d+\])/g)]: the matched
    text and the rest. *)
Definition marker_at (s : string) : option (string * string) :=
  match digits_marker_at s with
  | Some (ds, rest) => Some (marker_text ds, rest)
  | None => None
  end.

(** [String.prototype.split] with a separator that has one capture group
    around the whole match and never matches the empty string: [lit] is the
    text since the end of the last match. *)
Fixpoint split_loop (sep_at : string -> option (string * string))
    (fuel : nat) (lit s : string) : list string :=
  match fuel with
  | O => [lit +:+ s]
  | S fuel' =>
      match sep_at s with
      | Some (m, rest) => lit :: m :: split_loop sep_at fuel' "" rest
      | None =>
          match s with
          | "" => [lit]
          | String c s' => split_loop sep_at fuel' (lit +:+ String c "") s'
          end
      end
  end.

Definition split (sep_at : string -> option (string * string)) (s : string)
  : list string :=
  split_loop sep_at (S (String.length s)) "" s.

(** [part.match(/^\[(\d+)\]$/)]: the captured digits. *)
Definition citationMatch (part : string) : option string :=
  match digits_marker_at part with
  | Some (ds, "") => Some ds
  | _ => None
  end.

(** *** What the parts of a split look like *)

Definition join (parts : list string) : string := foldr String.append "" parts.

Fixpoint all_chars (f : ascii -> bool) (s : string) : bool :=
  match s with
  | "" => true
  | String c s' => f c && all_chars f s'
  end.

(** A string of one or more digits. *)
Definition is_digits (ds : string) : bool :=
  all_chars is_digit ds && negb (String.eqb ds "").

(** A character that neither [renderBasicMarkdown] pattern can start on:
    not an asterisk and not the first byte of the bracket U+27E8. *)
Definition plain_char (c : ascii) : bool :=
  negb (c =? "*")%char && negb (c =? "226")%char.

(** Whether a marker starts somewhere in [s]. *)
Fixpoint contains_marker (s : string) : bool :=
  match marker_at s with
  | Some _ => true
  | None =>
      match s with
      | "" => false
      | String _ s' => contains_marker s'
      end
  end.

(** Literal text and markers in alternation, first and last a literal; a
    literal holds no marker and may be empty. *)
Inductive Tokenized : list string -> Prop :=
| Tokenized_last lit :
    contains_marker lit = false -> Tokenized [lit]
| Tokenized_marker lit ds rest :
    contains_marker lit = false -> is_digits ds = true -> Tokenized rest ->
    Tokenized (lit :: marker_text ds :: rest).

(** *** renderBasicMarkdown *)

Fixpoint string_prefix (p s : string) : bool :=
  match p, s with
  | "", _ => true
  | String a p', String b s' => (a =? b)%char && string_prefix p' s'
  | String _ _, "" => false
  end.

Fixpoint string_drop (n : nat) (s : string) : string :=
  match n, s with
  | O, _ => s
  | S n', String _ s' => string_drop n' s'
  | S _, "" => ""
  end.

(** Whether [s] starts with a character that [.] refuses: line feed,
    carriage return, U+2028 or U+2029. *)
Definition line_terminator_at (s : string) : bool :=
  match s with
  | String c rest =>
      (c =? "010")%char || (c =? "013")%char
      || ((c =? "226")%char
          && match rest with
             | String c1 (String c2 _) =>
                 (c1 =? "128")%char
                 && ((c2 =? "168")%char || (c2 =? "169")%char)
             | _ => false
             end)
  | "" => false
  end.

(** [(.*?)close] matched at the start of [s]: the shortest run of
    non-terminator characters followed by [close]. *)
Fixpoint lazy_until (close s : string) : option (string * string) :=
  if string_prefix close s
  then Some ("", string_drop (String.length close) s)
  else match s with
       | "" => None
       | String c s' =>
           if line_terminator_at s then None
           else match lazy_until close s' with
                | Some (inner, rest) => Some (String c inner, rest)
                | None => None
                end
       end.

(** [open(.*?)close] matched at the start of [s]. *)
Definition delimited_at (open close s : string) : option (string * string) :=
  if string_prefix open s
  then lazy_until close (string_drop (String.length open) s)
  else None.

Definition bold_open : string := "⟨bold⟩".
Definition bold_close : string := "⟨/bold⟩".

(** [text.replace(/\*\*(.*?)\*\*/g, '⟨bold⟩$1⟨/bold⟩')] *)
Fixpoint replace_bold (fuel : nat) (s : string) : string :=
  match fuel with
  | O => s
  | S fuel' =>
      match delimited_at "**" "**" s with
      | Some (inner, rest) =>
          bold_open +:+ inner +:+ bold_close +:+ replace_bold fuel' rest
      | None =>
          match s with
          | "" => ""
          | String c s' => String c (replace_bold fuel' s')
          end
      end
  end.

(** The separator of [result.split(/(⟨bold⟩.*?⟨\/bold⟩)/g)]. *)
Definition bold_at (s : string) : option (string * string) :=
  match delimited_at bold_open bold_close s with
  | Some (inner, rest) => Some (bold_open +:+ inner +:+ bold_close, rest)
  | None => None
  end.

(** [part.match(/⟨bold⟩(.*?)⟨\/bold⟩/)], not anchored: the capture of the
    leftmost match. *)
Fixpoint boldMatch (part : string) : option string :=
  match delimited_at bold_open bold_close part with
  | Some (inner, _) => Some inner
  | None =>
      match part with
      | "" => None
      | String _ part' => boldMatch part'
      end
  end.

Inductive Inline :=
| PlainText (text : string)
| StrongText (key : nat) (text : string).

(** What [renderBasicMarkdown] returns: its argument when that is the empty
    string, an array of strings and [<strong>] elements otherwise. *)
Inductive Markdown :=
| Unchanged (text : string)
| Parts (parts : list Inline).

Definition renderBasicMarkdown (text : string) : Markdown :=
  match text with
  | "" => Unchanged text
  | _ =>
      let result := replace_bold (String.length text) text in
      let parts := split bold_at result in
      Parts (imap (fun i part =>
                     match boldMatch part with
                     | Some inner => StrongText i inner
                     | None => PlainText part
                     end) parts)
  end.

(** *** parsedContent *)

Section WithCitations.
Context {Citation : Type}.

Record Message := mkMessage {
  role : string;
  content : string;
  citations : option (gmap string Citation);
  isError : bool
}.

Definition isUser (message : Message) : bool := String.eqb (role message) "user".

(** A child of [<div className="message-text">]: a [<button>] whose click
    calls [onCitationClick(citation)] and whose label is [[citationNum]],
    or a [<span>] around rendered markdown.  The [className] and [title]
    attributes are left out. *)
Inductive Child :=
| CitationButton (key : nat) (citation : Citation) (citationNum : string)
| TextSpan (key : nat) (body : Markdown).

Inductive Content :=
| Paragraph (text : string)
| TextBlock (children : list Child).

(** The callback of [parts.map((part, index) => ...)]. *)
Definition renderPart (table : gmap string Citation) (index : nat)
    (part : string) : Child :=
  match citationMatch part with
  | Some citationNum =>
      match table !! citationNum with
      | Some citation => CitationButton index citation citationNum
      | None => TextSpan index (renderBasicMarkdown part)
      end
  | None => TextSpan index (renderBasicMarkdown part)
  end.

(** [None] for [citations] is a missing (falsy) [message.citations]. *)
Definition parsedContent (message : Message) : Content :=
  if isUser message then Paragraph (content message)
  else match citations message with
       | None => Paragraph (content message)
       | Some table =>
           TextBlock (imap (renderPart table)
                        (split marker_at (content message)))
       end.

(** *** The token reading of the parts *)

(** The parts classified as the design's tokens, and their presentation. *)
Inductive Token :=
| Literal (value : string)
| Reference (marker : string) (citation : option Citation).

Definition tokenOfPart (table : gmap string Citation) (part : string) : Token :=
  match citationMatch part with
  | Some digits => Reference digits (table !! digits)
  | None => Literal part
  end.

Definition parse (text : string) (table : gmap string Citation) : list Token :=
  map (tokenOfPart table) (split marker_at text).

Definition present (index : nat) (t : Token) : Child :=
  match t with
  | Literal value => TextSpan index (renderBasicMarkdown value)
  | Reference marker (Some citation) => CitationButton index citation marker
  | Reference marker None =>
      TextSpan index (renderBasicMarkdown (marker_text marker))
  end.

End WithCitations.
Arguments Message : clear implicits.
Arguments Child : clear implicits.
Arguments Content : clear implicits.
Arguments Token : clear implicits.

End ChatMessage.

(** ** App.jsx: the citation bridge *)

Module App.
Section WithNumbers.
Context {num : Type} `{JsNumber num}.

(** A citation as the backend sends it; [bounding_boxes] and [text] may be
    missing. *)
Record Citation := mkCitation {
  page : nat;
  bounding_boxes : option (list (@PDFViewer.BoundingBox num));
  page_width : num;
  page_height : num;
  text : option string
}.

(** [pdfViewerRef.current] is [None] while no viewer is mounted. *)
Record World := mkWorld {
  console : list string;
  pdfViewerRef : option (@PDFViewer.Viewer num)
}.

Definition console_log (line : string) (w : World) : World :=
  mkWorld (console w ++ [line]) (pdfViewerRef w).

Definition handleCitationClick (citation : Citation) (w : World) : World :=
  let w := console_log "[App] Citation clicked:" w in
  match pdfViewerRef w, bounding_boxes citation with
  | Some viewer, Some (b :: bs) =>
      mkWorld (console w)
        (Some (PDFViewer.highlightAndScroll (page citation) (b :: bs)
                 (page_width citation) (page_height citation) viewer))
  | _, _ => w
  end.

End WithNumbers.
End App.

(** ** Rectangles over exact numbers *)

Module Exact.
Import PDFViewer.
Local Open Scope Q_scope.

(** Equality of rationals is [Qeq]; rectangles are compared field by
    field. *)
Definition bbox_equiv (a b : @BoundingBox Q) : Prop :=
  x0 a == x0 b /\ y0 a == y0 b /\ x1 a == x1 b /\ y1 a == y1 b.

Definition style_equiv (a b : @Style Q) : Prop :=
  left a == left b /\ top_px a == top_px b
  /\ width_px a == width_px b /\ height_px a == height_px b.

(** The linear combination [k * a + b] of boxes and of pixel rectangles. *)
Definition bbox_combine (k : Q) (a b : @BoundingBox Q) : @BoundingBox Q :=
  mkBBox (k * x0 a + x0 b) (k * y0 a + y0 b) (k * x1 a + x1 b)
         (k * y1 a + y1 b).

Definition style_combine (k : Q) (a b : @Style Q) : @Style Q :=
  mkStyle (k * left a + left b) (k * top_px a + top_px b)
          (k * width_px a + width_px b) (k * height_px a + height_px b).

Definition withBox (h : @Highlight Q) (b : @BoundingBox Q) : @Highlight Q :=
  mkHighlight (id h) (page h) b (sourcePageWidth h) (sourcePageHeight h).

End Exact.

(** ** Concrete runs on binary64 numbers *)

Module Scenarios.
Import PDFViewer.

Definition letterWidth : float := 612%float.
Definition letterHeight : float := 792%float.

Definition boxA : @BoundingBox float := mkBBox 72%float 100%float 300%float 120%float.
Definition boxB : @BoundingBox float := mkBBox 72%float 400%float 540%float 430%float.

(** A viewer showing a three-page document rendered at scale 1.5, the
    clock at [t0], no timer pending. *)
Definition loadedViewer (t0 : Z) : @Viewer float :=
  mkViewer [] 1 [1; 2; 3]%nat false
    (<[0%nat := Some (mkPageElement 80%float)]>
       (<[1%nat := Some (mkPageElement 1300%float)]>
          (<[2%nat := Some (mkPageElement 2520%float)]> ∅)))
    (<[1%nat := Some (mkCanvas 918%float 1188%float)]>
       (<[2%nat := Some (mkCanvas 918%float 1188%float)]>
          (<[3%nat := Some (mkCanvas 918%float 1188%float)]> ∅)))
    t0 [] [].

(** Two citations clicked five seconds apart. *)
Definition afterFirstClick : @Viewer float :=
  highlightAndScroll 0 [boxA] letterWidth letterHeight (loadedViewer 0).

Definition afterSecondClick : @Viewer float :=
  highlightAndScroll 1 [boxB] letterWidth letterHeight
    (advanceTo 5000 afterFirstClick).

(** The same with clicks at 1 s and 4 s. *)
Definition clickAt1s : @Viewer float :=
  highlightAndScroll 2 [boxA; boxB] letterWidth letterHeight
    (loadedViewer 1000).

Definition clickAt4s : @Viewer float :=
  highlightAndScroll 0 [boxB] letterWidth letterHeight
    (advanceTo 4000 clickAt1s).

(** A citation for page index 2 clicked while the document is still
    loading, before the canvas of page 3 exists; the canvas is attached and
    rendered at 918 by 1188 only after nine seconds. *)
Definition clickBeforeCanvas : @Viewer float :=
  highlightAndScroll 2 [boxA] letterWidth letterHeight (initialViewer 0).

Definition renderedAfter9s : @Viewer float :=
  renderPageDone 3 918%float 1188%float
    (attachCanvas 3 (Some (mkCanvas 300%float 150%float))
       (advanceTo 9000 clickBeforeCanvas)).

(** The same, the page being rendered after two seconds. *)
Definition renderedAfter2s : @Viewer float :=
  renderPageDone 3 918%float 1188%float
    (attachCanvas 3 (Some (mkCanvas 300%float 150%float))
       (advanceTo 2000 clickBeforeCanvas)).

(** A highlight whose source page width is zero, as a citation with
    [page_width] 0 yields it. *)
Definition zeroWidthHighlight : @Highlight float :=
  mkHighlight "highlight-0-0" 0 boxA 0%float letterHeight.

(** Three page wrappers in a container 800 pixels high whose top edge is at
    60: page index 0 is scrolled out above, the top edge of page index 1 is
    at 300, page index 2 starts below the viewport. *)
Definition scrolledContainer : @Container float :=
  mkContainer 560%float 800%float 60%float.

Definition scrolledViewer : @Viewer float :=
  mkViewer [] 1 [1; 2; 3]%nat false
    (<[0%nat := Some (mkPageElement (-500)%float)]>
       (<[1%nat := Some (mkPageElement 300%float)]>
          (<[2%nat := Some (mkPageElement 1100%float)]> ∅)))
    ∅ 0 [] [].

(** A highlight on a canvas, over exact numbers. *)
Definition exactHighlight : @Highlight Q :=
  mkHighlight "highlight-0-0" 0 (mkBBox 72 100 300 120)%Q 612%Q 792%Q.

Definition exactViewer : @Viewer Q :=
  attachCanvas 1 (Some (mkCanvas 918 1188)%Q) (initialViewer 0).

(** A mounted viewer that shows a batch, and a citation without boxes. *)
Definition mountedWorld : @App.World float :=
  App.mkWorld [] (Some afterFirstClick).

Definition citationWithoutBoxes : @App.Citation float :=
  App.mkCitation 4 None letterWidth letterHeight (Some "quoted text").

End Scenarios.

(** ** PDFViewer.jsx: the zoom buttons *)

Module Zoom.

Local Open Scope float_scope.

(** [Math.max] and [Math.min] on two numbers: NaN if either is NaN, and
    [+0] counts as larger than [-0]. *)
Definition Math_max (a b : float) : float :=
  if PrimFloat.is_nan a || PrimFloat.is_nan b then PrimFloat.nan
  else if a <? b then b
  else if b <? a then a
  else if PrimFloat.get_sign a then b else a.

Definition Math_min (a b : float) : float :=
  if PrimFloat.is_nan a || PrimFloat.is_nan b then PrimFloat.nan
  else if a <? b then a
  else if b <? a then b
  else if PrimFloat.get_sign a then a else b.

(** [useState(1.5)] *)
Definition initialScale : float := 1.5.

(** The updaters handed to [setScale] by the three toolbar buttons. *)
Definition zoomOut (s : float) : float := Math_max 0.5 (s - 0.25).
Definition zoomIn (s : float) : float := Math_min 3 (s + 0.25).
Definition resetZoom (s : float) : float := 1.5.

Inductive Button := ZoomOutButton | ZoomInButton | ResetButton.

Definition press (b : Button) (s : float) : float :=
  match b with
  | ZoomOutButton => zoomOut s
  | ZoomInButton => zoomIn s
  | ResetButton => resetZoom s
  end.

(** The scale after a sequence of clicks on a freshly mounted viewer. *)
Definition scaleAfter (clicks : list Button) : float :=
  foldl (fun s b => press b s) initialScale clicks.

(** The quarter steps from 0.5 to 3. *)
Definition zoomLevels : list float :=
  [0.5; 0.75; 1; 1.25; 1.5; 1.75; 2; 2.25; 2.5; 2.75; 3].

End Zoom.

(** ** PDFViewer.jsx: what every run keeps true of the timers *)

Module Timing.
Section WithNumbers.
Context {num : Type} `{JsNumber num}.
Import PDFViewer.

(** Every timer is due no later than the timers queued behind it. *)
Fixpoint firingOrder (q : list Timer) : Prop :=
  match q with
  | [] => True
  | tm :: q' => (forall x, x ∈ q' -> due tm <= due x) /\ firingOrder q'
  end.

(** Every pending timer is due in the future, at most 8000 ms ahead; the
    queue is in firing order; and a shown batch has a timer pending. *)
Definition wellTimed (s : @Viewer num) : Prop :=
  firingOrder (timers s)
  /\ (forall tm, tm ∈ timers s -> now s < due tm <= now s + 8000)
  /\ (timers s = [] -> highlights s = []).

End WithNumbers.
End Timing.

(** ** PDFViewer.jsx: loading the document and listing its pages *)

Module Document.
Section WithNumbers.
Context {num : Type} `{JsNumber num}.
Import PDFViewer.

Definition setRenderedPages (pages : list nat) (s : @Viewer num) : Viewer :=
  mkViewer (highlights s) (currentPage s) pages (isLoading s) (pageRefs s)
    (canvasRefs s) (now s) (timers s) (scrollRequests s).

Definition setIsLoading (b : bool) (s : @Viewer num) : Viewer :=
  mkViewer (highlights s) (currentPage s) (renderedPages s) b (pageRefs s)
    (canvasRefs s) (now s) (timers s) (scrollRequests s).

(** The component with the state the viewer record leaves out: the
    document handle of PDF.js, of which only [numPages] is read, and
    [totalPages]. *)
Record Component := mkComponent {
  viewer : @Viewer num;
  pdfDoc : option nat;
  totalPages : nat
}.

(** A freshly mounted component: the [useState] defaults. *)
Definition mounted (t0 : Z) : Component :=
  mkComponent (initialViewer t0) None 0.

(** The synchronous part of the load effect; an empty [pdfUrl] is falsy. *)
Definition loadStart (pdfUrl : string) (c : Component) : Component :=
  if String.eqb pdfUrl "" then c
  else mkComponent (setRenderedPages [] (setIsLoading true (viewer c)))
         (pdfDoc c) (totalPages c).

(** [loadPDF] after [await loadingTask.promise]: [Some numPages] when the
    promise resolves, [None] when it rejects. *)
Definition loadSettled (outcome : option nat) (c : Component) : Component :=
  match outcome with
  | Some numPages =>
      mkComponent (setIsLoading false (viewer c)) (Some numPages) numPages
  | None => mkComponent (setIsLoading false (viewer c)) (pdfDoc c) (totalPages c)
  end.

(** [for (let i = 1; i <= pdfDoc.numPages; i++) pages.push(i)], with
    [remaining] iterations to go. *)
Fixpoint pushPages (remaining i : nat) (pages : list nat) : list nat :=
  match remaining with
  | O => pages
  | S remaining' => pushPages remaining' (S i) (pages ++ [i])
  end.

(** The effect on [pdfDoc] and [scale]. *)
Definition renderAllPages (c : Component) : Component :=
  match pdfDoc c with
  | None => c
  | Some numPages =>
      mkComponent (setRenderedPages (pushPages numPages 1 []) (viewer c))
        (pdfDoc c) (totalPages c)
  end.

(** Mounting with [pdfUrl], the load settling with [outcome], and the
    effect that follows. *)
Definition open (pdfUrl : string) (outcome : option nat) (t0 : Z) : Component :=
  renderAllPages (loadSettled outcome (loadStart pdfUrl (mounted t0))).

End WithNumbers.
End Document.

(** ** ChatMessage.jsx: text the bold pattern can enclose *)

Module Markdown.

(** A character [.] accepts and neither pattern can start on: no asterisk,
    no byte 226 (so no character from U+2000 to U+2FFF, the two line
    separators and the bold brackets among them), no line feed, no carriage
    return. *)
Definition inline_char (c : ascii) : bool :=
  ChatMessage.plain_char c && negb (c =? "010")%char && negb (c =? "013")%char.

End Markdown.

(** ** From a click in the chat to the viewer *)

Module Bridge.
Section WithNumbers.
Context {num : Type} `{JsNumber num}.

(** A click on a child of the message text: a button runs its [onClick],
    [() => onCitationClick(citation)], where [ChatPanel] passes App's
    [handleCitationClick] as [onCitationClick]; a [<span>] has no
    handler. *)
Definition clickChild (child : ChatMessage.Child (@App.Citation num))
    (w : @App.World num) : App.World :=
  match child with
  | ChatMessage.CitationButton _ citation _ => App.handleCitationClick citation w
  | ChatMessage.TextSpan _ _ => w
  end.

(** A click on the [i]-th child of a message's parsed content. *)
Definition clickAt (content : ChatMessage.Content (@App.Citation num))
    (i : nat) (w : @App.World num) : App.World :=
  match content with
  | ChatMessage.Paragraph _ => w
  | ChatMessage.TextBlock children =>
      match children !! i with
      | Some child => clickChild child w
      | None => w
      end
  end.

End WithNumbers.
End Bridge.

(** ** String.prototype.trim *)

(** On the UTF-8 form of a string: the white space and line terminator
    code points, each by its encoding. *)

Module JsString.

Local Open Scope string_scope.

(** Tab, line feed, vertical tab, form feed, carriage return, space. *)
Definition is_space1 (a : ascii) : bool :=
  ((a =? "009") || (a =? "010") || (a =? "011") || (a =? "012")
   || (a =? "013") || (a =? " "))%char.

(** U+00A0. *)
Definition is_space2 (a b : ascii) : bool := ((a =? "194") && (b =? "160"))%char.

(** U+1680, U+2000 to U+200A, U+2028, U+2029, U+202F, U+205F, U+3000 and
    U+FEFF. *)
Definition is_space3 (a b c : ascii) : bool :=
  (((a =? "225") && (b =? "154") && (c =? "128"))
   || ((a =? "226") && (b =? "128")
       && ((("128" <=? c) && (c <=? "138")) || (c =? "168") || (c =? "169")
           || (c =? "175")))
   || ((a =? "226") && (b =? "129") && (c =? "159"))
   || ((a =? "227") && (b =? "128") && (c =? "128"))
   || ((a =? "239") && (b =? "187") && (c =? "191")))%char.

(** The length in bytes of the white space character [s] starts with, 0 if
    it starts with none. *)
Definition whitespace_at (s : string) : nat :=
  match s with
  | String a r =>
      if is_space1 a then 1
      else match r with
           | String b r' =>
               if is_space2 a b then 2
               else match r' with
                    | String c _ => if is_space3 a b c then 3 else 0
                    | "" => 0
                    end
           | "" => 0
           end
  | "" => 0
  end.

Fixpoint trimStart_loop (fuel : nat) (s : string) : string :=
  match fuel with
  | O => s
  | S fuel' =>
      match whitespace_at s with
      | O => s
      | S n => trimStart_loop fuel' (ChatMessage.string_drop (S n) s)
      end
  end.

Definition trimStart (s : string) : string :=
  trimStart_loop (String.length s) s.

(** Nothing but white space. *)
Definition is_blank (s : string) : bool := String.eqb (trimStart s) "".

Fixpoint trimEnd (s : string) : string :=
  match s with
  | "" => ""
  | String c s' => if is_blank s then "" else String c (trimEnd s')
  end.

Definition trim (s : string) : string := trimEnd (trimStart s).

(** A string as a condition: the empty string is falsy. *)
Definition truthy (s : string) : bool := negb (String.eqb s "").

End JsString.

(** ** ChatPanel.jsx: submitting the input *)

Module ChatPanel.

Local Open Scope string_scope.

(** [handleSubmit]: the argument handed to [onSendMessage], if it is
    called, and the input afterwards. *)
Definition handleSubmit (input : string) (isLoading : bool)
  : option string * string :=
  if JsString.truthy (JsString.trim input) && negb isLoading
  then (Some (JsString.trim input), "")
  else (None, input).

(** [handleKeyDown]: whether the default action of the key was prevented,
    and what [handleSubmit] did. *)
Definition handleKeyDown (key : string) (shiftKey : bool)
    (input : string) (isLoading : bool) : bool * (option string * string) :=
  if String.eqb key "Enter" && negb shiftKey
  then (true, handleSubmit input isLoading)
  else (false, (None, input)).

End ChatPanel.

(** ** useChat.js *)

Module UseChat.
Section WithCitations.
Context {Citation : Type}.

(** A message of the list: the fields [ChatMessage] reads, the [id] and the
    instant that [timestamp] prints. *)
Record Entry := mkEntry {
  id : Z;
  message : ChatMessage.Message Citation;
  timestamp : Z
}.

Record Hook := mkHook {
  messages : list Entry;
  isLoading : bool;
  error : option string
}.

(** [useState([])], [useState(false)], [useState(null)]. *)
Definition initialHook : Hook := mkHook [] false None.

(** The arguments of [queryPDF]. *)
Record Request := mkRequest {
  question : string;
  file_id : string;
  api_key : string
}.

(** How [await queryPDF(...)] ends: with [{ answer, citations }], the
    latter possibly missing, or with an error and its message. *)
Inductive QueryResult :=
| Answered (answer : string) (citations : option (gmap string Citation))
| Failed (errorMessage : string).

Definition userMessage (question : string) : ChatMessage.Message Citation :=
  ChatMessage.mkMessage "user" question None false.

Definition aiMessage (answer : string)
    (citations : option (gmap string Citation)) : ChatMessage.Message Citation :=
  ChatMessage.mkMessage "assistant" answer citations false.

Definition errorMessage (text : string) : ChatMessage.Message Citation :=
  ChatMessage.mkMessage "assistant" ("Error: " +:+ text) (Some ∅) true.

(** A missing or empty [fileId] is falsy. *)
Definition fileId_given (fileId : option string) : bool :=
  match fileId with
  | Some f => JsString.truthy f
  | None => false
  end.

(** [sendMessage] up to [await queryPDF(...)], at time [t]: the new state
    and the request made, if any. *)
Definition sendStart (fileId : option string) (apiKey : string)
    (question : string) (t : Z) (h : Hook) : Hook * option Request :=
  if negb (JsString.truthy (JsString.trim question))
     || negb (fileId_given fileId)
     || negb (JsString.truthy apiKey)
     || isLoading h
  then (h, None)
  else (mkHook (messages h ++ [mkEntry t (userMessage question) t]) true None,
        Some (mkRequest question (default ""%string fileId) apiKey)).

(** [sendMessage] from the point where the request settles, at time [t]. *)
Definition sendSettled (outcome : QueryResult) (t : Z) (h : Hook) : Hook :=
  match outcome with
  | Answered answer citations =>
      mkHook (messages h ++ [mkEntry (t + 1) (aiMessage answer citations) t])
        false (error h)
  | Failed text =>
      mkHook (messages h ++ [mkEntry (t + 1) (errorMessage text) t])
        false (Some text)
  end.

Definition clearChat (h : Hook) : Hook := mkHook [] (isLoading h) None.

End WithCitations.
Arguments Entry : clear implicits.
Arguments Hook : clear implicits.
Arguments QueryResult : clear implicits.

End UseChat.

(** ** App.jsx: the API key form *)

Module ApiKeyForm.

Local Open Scope string_scope.

Record State := mkState { apiKey : string; tempApiKey : string }.

(** [useState('')] twice. *)
Definition initialState : State := mkState "" "".

(** The input's [onChange]. *)
Definition setTempApiKey (value : string) (s : State) : State :=
  mkState (apiKey s) value.

Definition handleApiKeySubmit (s : State) : State :=
  if JsString.truthy (JsString.trim (tempApiKey s))
  then mkState (JsString.trim (tempApiKey s)) (tempApiKey s)
  else s.

Inductive FormEvent := Typed (value : string) | Submitted.

Definition formStep (e : FormEvent) (s : State) : State :=
  match e with
  | Typed value => setTempApiKey value s
  | Submitted => handleApiKeySubmit s
  end.

(** [!apiKey] selects the key prompt. *)
Definition showsKeyPrompt (s : State) : bool := negb (JsString.truthy (apiKey s)).

End ApiKeyForm.

(** ** api.js: how a request ends *)

Module Api.

Local Open Scope string_scope.

(** The [detail] field of an error body: a falsy value other than a string
    ([undefined], [null], [false], 0), a string, or another, truthy value
    with the text [String] gives for it. *)
Inductive Detail :=
| DetailFalsy
| DetailString (s : string)
| DetailOther (shown : string).

(** The message of [new Error(error.detail || fallback)]. *)
Definition detailOr (d : Detail) (fallback : string) : string :=
  match d with
  | DetailFalsy => fallback
  | DetailString s => if JsString.truthy s then s else fallback
  | DetailOther shown => shown
  end.

(** What [await response.json()] and the reading of the result give: a
    value, or an exception with its message. *)
Inductive Body (A : Type) :=
| Throws (message : string)
| Json (value : A).
Arguments Throws {A} message.
Arguments Json {A} value.

(** How [await fetch(...)] ends: it rejects, or it resolves to a response
    that is [ok] or not. *)
Inductive Fetched (A : Type) :=
| NetworkError (message : string)
| OkResponse (body : Body A)
| ErrorResponse (body : Body Detail).
Arguments NetworkError {A} message.
Arguments OkResponse {A} body.
Arguments ErrorResponse {A} body.

(** How an [async] function ends. *)
Inductive Outcome (A : Type) :=
| Resolved (value : A)
| Rejected (message : string).
Arguments Resolved {A} value.
Arguments Rejected {A} message.

(** The part [uploadPDF] and [queryPDF] share, after [fetch]. *)
Definition settle {A : Type} (fallback : string) (r : Fetched A) : Outcome A :=
  match r with
  | NetworkError message => Rejected message
  | OkResponse (Json value) => Resolved value
  | OkResponse (Throws message) => Rejected message
  | ErrorResponse (Json detail) => Rejected (detailOr detail fallback)
  | ErrorResponse (Throws message) => Rejected message
  end.

Definition uploadPDF {A : Type} (r : Fetched A) : Outcome A :=
  settle "Upload failed" r.

Definition queryPDF {A : Type} (r : Fetched A) : Outcome A :=
  settle "Query failed" r.

Definition API_BASE : string := "/api".

Definition getPDFUrl (fileId : string) : string := API_BASE +:+ "/pdf/" +:+ fileId.

End Api.

(** ** FileUpload.jsx *)

Module FileUpload.

Local Open Scope string_scope.

Record File := mkFile { name : string; size : Z }.

(** [toLowerCase] on the letters A to Z.  Other characters are left as they
    are: the test below only looks for the four characters of [.pdf], which
    no character outside A to Z is lowered to. *)
Definition lower (c : ascii) : ascii :=
  if (("A" <=? c) && (c <=? "Z"))%char
  then ascii_of_nat (nat_of_ascii c + 32)
  else c.

Fixpoint toLowerCase (s : string) : string :=
  match s with
  | "" => ""
  | String c s' => String (lower c) (toLowerCase s')
  end.

Definition endsWith (s suffix : string) : bool :=
  (String.length suffix <=? String.length s)%nat
  && String.eqb
       (ChatMessage.string_drop (String.length s - String.length suffix) s)
       suffix.

Definition isPdfName (fileName : string) : bool :=
  endsWith (toLowerCase fileName) ".pdf".

(** [50 * 1024 * 1024] *)
Definition maxSize : Z := 50 * 1024 * 1024.

(** What [handleFile] does, in order. *)
Inductive Effect (R : Type) :=
| Alert (text : string)
| SetUploadProgress (text : string)
| UploadPDF (file : File)
| Delay (ms : Z)
| OnUploadComplete (result : R).
Arguments Alert {R} text.
Arguments SetUploadProgress {R} text.
Arguments UploadPDF {R} file.
Arguments Delay {R} ms.
Arguments OnUploadComplete {R} result.

(** What happens inside the [try]: the dynamic import fails, or
    [uploadPDF] is called and ends. *)
Inductive Attempt (R : Type) :=
| ImportFailed (message : string)
| Uploaded (outcome : Api.Outcome R).
Arguments ImportFailed {R} message.
Arguments Uploaded {R} outcome.

Definition handleFile {R : Type} (file : File) (attempt : Attempt R)
  : list (Effect R) :=
  if negb (isPdfName (name file))
  then [Alert "Please upload a PDF file."]
  else if size file >? maxSize
  then [Alert "File too large. Please upload a PDF under 50MB."]
  else
    SetUploadProgress "Uploading..."
    :: match attempt with
       | ImportFailed message =>
           [SetUploadProgress ""; Alert ("Upload failed: " +:+ message)]
       | Uploaded (Api.Rejected message) =>
           [SetUploadProgress
              "Processing PDF (extracting text & coordinates)...";
            UploadPDF file;
            SetUploadProgress ""; Alert ("Upload failed: " +:+ message)]
       | Uploaded (Api.Resolved result) =>
           [SetUploadProgress
              "Processing PDF (extracting text & coordinates)...";
            UploadPDF file;
            SetUploadProgress "Generating embeddings...";
            Delay 500;
            SetUploadProgress "";
            OnUploadComplete result]
       end.

(** [handleDrop] and [handleFileSelect]: the first file only. *)
Definition handleFiles {R : Type} (files : list File) (attempt : Attempt R)
  : list (Effect R) :=
  match files with
  | file :: _ => handleFile file attempt
  | [] => []
  end.

Definition isAlert {R : Type} (e : Effect R) : bool :=
  match e with Alert _ => true | _ => false end.

Definition isCompletion {R : Type} (e : Effect R) : bool :=
  match e with OnUploadComplete _ => true | _ => false end.

(** The progress text after the effects, [None] if it was never set. *)
Definition lastProgress {R : Type} (es : list (Effect R)) : option string :=
  foldl (fun acc e => match e with SetUploadProgress t => Some t | _ => acc end)
        None es.

End FileUpload.

(** ** More concrete runs *)

Module Runs.
Import PDFViewer.

(** The two clicks of [Scenarios.afterSecondClick] as a list of events. *)
Definition twoClicks : list (@Event float) :=
  [Navigate 0 [Scenarios.boxA] Scenarios.letterWidth Scenarios.letterHeight;
   Elapse 5000;
   Navigate 1 [Scenarios.boxB] Scenarios.letterWidth Scenarios.letterHeight].

(** The viewport in the middle of a long first page: the top edge of page
    index 0 is above the container, that of page index 1 below its middle. *)
Definition midPageContainer : @Container float :=
  mkContainer 360%float 800%float 60%float.

Definition midPageViewer : @Viewer float :=
  mkViewer [] 1 [1; 2]%nat false
    (<[0%nat := Some (mkPageElement (-300)%float)]>
       (<[1%nat := Some (mkPageElement 900%float)]> ∅))
    ∅ 0 [] [].

(** An answer that cites two places, the first with two boxes on page
    index 2, the second without boxes. *)
Definition citedTwice : @App.Citation float :=
  App.mkCitation 2 (Some [Scenarios.boxA; Scenarios.boxB])
    Scenarios.letterWidth Scenarios.letterHeight (Some "first passage").

Definition answer : ChatMessage.Message (@App.Citation float) :=
  ChatMessage.mkMessage "assistant" "See [1] and [2]."
    (Some (<["1"%string := citedTwice]>
             (<["2"%string := Scenarios.citationWithoutBoxes]> ∅)))
    false.

Definition worldWithViewer : @App.World float :=
  App.mkWorld [] (Some (Scenarios.loadedViewer 0)).

(** A box on a letter page whose right edge is 300.7, that is, the binary64
    number nearest to it, and the rectangle the viewer draws for it on a
    canvas of 918 by 1188 pixels: left 108, top 150, width
    343.04999999999995, height 30. *)
Definition decimalBox : @BoundingBox float :=
  mkBBox 72%float 100%float 0x1.2cb3333333333p+8%float 120%float.

Definition decimalHighlight : @Highlight float :=
  mkHighlight "highlight-0-0" 0 decimalBox
    Scenarios.letterWidth Scenarios.letterHeight.

Definition decimalRect : @Style float :=
  mkStyle 108%float 150%float 0x1.570ccccccccccp+8%float 30%float.

(** A highlight on a letter page whose box starts at [x] on both axes and
    has no extent. *)
Definition cornerAt (x : float) : @Highlight float :=
  mkHighlight "highlight-0-0" 0 (mkBBox x x x x)
    Scenarios.letterWidth Scenarios.letterHeight.

(** The binary64 numbers nearest to 0.1, 0.3 and 0.4. *)
Definition oneTenth : float := 0x1.999999999999ap-4%float.
Definition threeTenths : float := 0x1.3333333333333p-2%float.
Definition fourTenths : float := 0x1.999999999999ap-2%float.

End Runs.

(** * Properties *)

(** ** The highlight life cycle *)

Section HighlightLifeCycle.
Context {num : Type} `{JsNumber num}.
Import PDFViewer.

Implicit Types (s v : @Viewer num) (bs : list (@BoundingBox num)).

Lemma highlights_highlightAndScroll p bs w h s :
  highlights (highlightAndScroll p bs w h s) = newHighlights (now s) p bs w h.
Proof.
  unfold highlightAndScroll. cbn.
  destruct (pageRefs s !! p) as [[?|]|]; reflexivity.
Qed.

Lemma timers_highlightAndScroll p bs w h s :
  timers (highlightAndScroll p bs w h s)
  = enqueue (mkTimer (now s + 8000) ClearHighlightsCallback) (timers s).
Proof.
  unfold highlightAndScroll. cbn.
  destruct (pageRefs s !! p) as [[?|]|]; reflexivity.
Qed.

Lemma now_highlightAndScroll p bs w h s :
  now (highlightAndScroll p bs w h s) = now s.
Proof.
  unfold highlightAndScroll. cbn.
  destruct (pageRefs s !! p) as [[?|]|]; reflexivity.
Qed.

Lemma canvasRefs_highlightAndScroll p bs w h s :
  canvasRefs (highlightAndScroll p bs w h s) = canvasRefs s.
Proof.
  unfold highlightAndScroll. cbn.
  destruct (pageRefs s !! p) as [[?|]|]; reflexivity.
Qed.

Lemma newHighlights_length t p bs w h :
  length (newHighlights t p bs w h) = length bs.
Proof. unfold newHighlights. apply length_imap. Qed.

Lemma newHighlights_lookup t p bs w h i :
  newHighlights t p bs w h !! i
  = (fun b => mkHighlight (highlightId t i) p b w h) <$> bs !! i.
Proof. unfold newHighlights. apply list_lookup_imap. Qed.

Lemma newHighlights_bbox t p bs w h :
  map bbox (newHighlights t p bs w h) = bs.
Proof.
  unfold newHighlights. generalize (highlightId t). intros f.
  revert f. induction bs as [|b bs IH]; intros f; [reflexivity|].
  cbn. f_equal. apply (IH (f ∘ S)).
Qed.

Lemma newHighlights_page t p bs w h x :
  x ∈ newHighlights t p bs w h ->
  page x = p /\ sourcePageWidth x = w /\ sourcePageHeight x = h.
Proof.
  intros Hx. apply list_elem_of_lookup in Hx as [i Hi].
  rewrite newHighlights_lookup in Hi.
  destruct (bs !! i); inversion Hi; subst; auto.
Qed.

Lemma singleBatch_nil : singleBatch (num:=num) [].
Proof.
  exists 0, 0%nat, [], (num_of_Z 0), (num_of_Z 0). reflexivity.
Qed.

(** A timer that fires leaves no highlight; one that does not fire leaves
    the set as it is. *)
Lemma highlights_fireDue t q s :
  highlights (fireDue t q s)
  = match q with
    | tm :: _ => if due tm <=? t then [] else highlights s
    | [] => highlights s
    end.
Proof.
  revert s. induction q as [|tm q IH]; intros s; [reflexivity|].
  cbn [fireDue]. destruct (due tm <=? t) eqn:Hd; [|reflexivity].
  rewrite IH. destruct (callback tm). cbn.
  destruct q as [|tm' q]; [reflexivity|]. destruct (due tm' <=? t); reflexivity.
Qed.

Lemma highlights_advanceTo t s :
  highlights (advanceTo t s)
  = match timers s with
    | tm :: _ => if due tm <=? t then [] else highlights s
    | [] => highlights s
    end.
Proof. unfold advanceTo. cbn. apply highlights_fireDue. Qed.

Lemma step_singleBatch e s :
  singleBatch (highlights s) -> singleBatch (highlights (step e s)).
Proof.
  intros Hs. destruct e as [p bs w h| |t|c|n el|n w h]; cbn [step].
  - rewrite highlights_highlightAndScroll. by exists (now s), p, bs, w, h.
  - apply singleBatch_nil.
  - rewrite highlights_advanceTo.
    destruct (timers s) as [|tm q]; [done|].
    destruct (due tm <=? t); [apply singleBatch_nil | done].
  - unfold handleScroll.
    by destruct (firstInTopHalf c (Object_entries (pageRefs s))).
  - done.
  - unfold renderPageDone. by destruct (canvasRefs s !! n) as [[?|]|].
Qed.

Lemma run_singleBatch es s :
  singleBatch (highlights s) -> singleBatch (highlights (run es s)).
Proof.
  revert s. induction es as [|e es IH]; intros s Hs; [done|].
  cbn. apply IH, step_singleBatch, Hs.
Qed.

End HighlightLifeCycle.

Section HighlightBatches.
Context {num : Type} `{JsNumber num}.
Import PDFViewer.

Implicit Types (s v : @Viewer num) (bs : list (@BoundingBox num)).

Lemma enqueue_elem (tm x : @Timer) q : x ∈ enqueue tm q <-> x = tm \/ x ∈ q.
Proof.
  induction q as [|y q IH]; cbn.
  - rewrite list_elem_of_singleton, elem_of_nil. tauto.
  - destruct (due y <=? due tm); rewrite !elem_of_cons; [rewrite IH|]; tauto.
Qed.

Lemma enqueue_length (tm : Timer) q : length (enqueue tm q) = S (length q).
Proof.
  induction q as [|y q IH]; cbn; [done|].
  destruct (due y <=? due tm); cbn; by rewrite ?IH.
Qed.

(** X5.  With no timer of an earlier call pending, a batch stays until
    its own timer fires, 8000 ms after the call, and is gone from then
    on. *)
Lemma expiry_without_older_timers p bs w h s t :
  timers s = [] ->
  highlights (advanceTo t (highlightAndScroll p bs w h s))
  = if now s + 8000 <=? t then [] else newHighlights (now s) p bs w h.
Proof.
  intros Hq.
  rewrite highlights_advanceTo, highlights_highlightAndScroll.
  rewrite timers_highlightAndScroll, Hq. reflexivity.
Qed.

(** C2. After a second [highlightAndScroll], whatever happened since the
    first one, the highlight set is exactly the batch built from the second
    call's arguments: one highlight per bounding box, in list order, all on
    the second call's page; it is what the call yields on a viewer that shows
    no highlight at all.  And at every point of every run of a mounted viewer
    the highlight set is a single batch. *)
Theorem second_navigate_installs_only_its_batch
    s p1 bs1 w1 h1 (between : list Event) p2 bs2 w2 h2 :
  let s1 := run between (highlightAndScroll p1 bs1 w1 h1 s) in
  let s2 := highlightAndScroll p2 bs2 w2 h2 s1 in
  highlights s2 = newHighlights (now s1) p2 bs2 w2 h2
  /\ length (highlights s2) = length bs2
  /\ map bbox (highlights s2) = bs2
  /\ (forall x, x ∈ highlights s2 ->
        page x = p2 /\ sourcePageWidth x = w2 /\ sourcePageHeight x = h2)
  /\ highlights s2
     = highlights (highlightAndScroll p2 bs2 w2 h2 (clearHighlights s1))
  /\ (forall t0 es, singleBatch (highlights (run es (initialViewer t0)))).
Proof.
  intros s1 s2. subst s2.
  rewrite !highlights_highlightAndScroll.
  split; [reflexivity|]. split; [apply newHighlights_length|].
  split; [apply newHighlights_bbox|].
  split; [intros x Hx; exact (newHighlights_page _ _ _ _ _ _ Hx)|].
  split; [reflexivity|].
  intros t0 es. apply run_singleBatch, singleBatch_nil.
Qed.

(** [highlightAndScroll] cancels nothing: every timer that was pending
    stays pending, and one timer due 8000 ms after the call is added.  The
    callback of a timer takes no argument and reads no state. *)
Lemma highlightAndScroll_keeps_pending_timers s p bs w h :
  let s' := highlightAndScroll p bs w h s in
  (forall tm, tm ∈ timers s -> tm ∈ timers s')
  /\ mkTimer (now s + 8000) ClearHighlightsCallback ∈ timers s'
  /\ length (timers s') = S (length (timers s))
  /\ (forall cb v, highlights (runCallback cb v) = []).
Proof.
  intros s'. subst s'.
  rewrite timers_highlightAndScroll.
  repeat split.
  - intros tm Htm. apply enqueue_elem. by right.
  - apply enqueue_elem. by left.
  - apply enqueue_length.
  - by intros [] v.
Qed.

End HighlightBatches.

(** C1 on the component.  Clicks at 0 ms and 5000 ms on a loaded
    document.  The claim: the second click cancels the timer of the first,
    and a timer that fires late leaves a newer batch alone.  The component:
    after the second click the timer of the first click (due 8000) is still
    queued, before the second one's (due 13000); the second batch is shown
    at 7999 ms; at 8000 ms the first timer empties the set, the second batch
    being 3000 ms old and its own timer still pending. *)
Theorem stale_timer_clears_newer_batch :
  PDFViewer.now Scenarios.afterSecondClick = 5000
  /\ PDFViewer.highlights Scenarios.afterSecondClick
     = PDFViewer.newHighlights 5000 1 [Scenarios.boxB]
         Scenarios.letterWidth Scenarios.letterHeight
  /\ PDFViewer.timers Scenarios.afterSecondClick
     = [PDFViewer.mkTimer 8000 PDFViewer.ClearHighlightsCallback;
        PDFViewer.mkTimer 13000 PDFViewer.ClearHighlightsCallback]
  /\ PDFViewer.highlights (PDFViewer.advanceTo 7999 Scenarios.afterSecondClick)
     = PDFViewer.newHighlights 5000 1 [Scenarios.boxB]
         Scenarios.letterWidth Scenarios.letterHeight
  /\ PDFViewer.highlights (PDFViewer.advanceTo 8000 Scenarios.afterSecondClick)
     = []
  /\ PDFViewer.timers (PDFViewer.advanceTo 8000 Scenarios.afterSecondClick)
     = [PDFViewer.mkTimer 13000 PDFViewer.ClearHighlightsCallback].
Proof. vm_compute. repeat split. Qed.

(** C9 on the component.  Clicks at 1000 ms and 4000 ms: the batch of the
    second click is neither superseded nor cleared, its own timer is due at
    12000 ms, and it is shown at 8999 ms; at 9000 ms, 5000 ms after its
    creation, the timer of the first click removes it. *)
Theorem batch_removed_before_its_8_seconds :
  PDFViewer.now Scenarios.clickAt4s = 4000
  /\ PDFViewer.highlights (PDFViewer.advanceTo 8999 Scenarios.clickAt4s)
     = PDFViewer.newHighlights 4000 0 [Scenarios.boxB]
         Scenarios.letterWidth Scenarios.letterHeight
  /\ PDFViewer.highlights (PDFViewer.advanceTo 9000 Scenarios.clickAt4s) = []
  /\ PDFViewer.timers (PDFViewer.advanceTo 9000 Scenarios.clickAt4s)
     = [PDFViewer.mkTimer 12000 PDFViewer.ClearHighlightsCallback].
Proof. vm_compute. repeat split. Qed.

(** ** Highlight geometry *)

Section HighlightGeometry.
Context {num : Type} `{JsNumber num}.
Import PDFViewer.

Implicit Types (s v : @Viewer num) (x : @Highlight num).

Lemma getHighlightStyle_canvas s x canvas :
  canvasRefs s !! (page x + 1)%nat = Some (Some canvas) ->
  getHighlightStyle s x = Some (highlightRect (width canvas) (height canvas) x).
Proof. intros Hc. unfold getHighlightStyle. by rewrite Hc. Qed.

Lemma getHighlightStyle_no_canvas s x :
  canvasRefs s !! (page x + 1)%nat = None
  \/ canvasRefs s !! (page x + 1)%nat = Some None ->
  getHighlightStyle s x = None.
Proof. intros [Hc|Hc]; unfold getHighlightStyle; by rewrite Hc. Qed.

(** C3, as the component implements it.  [getHighlightStyle] returns
    [null] exactly when no canvas is registered for the highlight's page
    (the entry is missing or [null]); with a canvas it returns the scaled
    rectangle for every source size, zero included: no source dimension is
    tested and no error is raised. *)
Theorem getHighlightStyle_null_iff_canvas_missing s x :
  (getHighlightStyle s x = None
   <-> canvasRefs s !! (page x + 1)%nat = None
       \/ canvasRefs s !! (page x + 1)%nat = Some None)
  /\ (forall canvas,
        canvasRefs s !! (page x + 1)%nat = Some (Some canvas) ->
        getHighlightStyle s x
        = Some (highlightRect (width canvas) (height canvas) x)).
Proof.
  split; [split|].
  - unfold getHighlightStyle.
    destruct (canvasRefs s !! (page x + 1)%nat) as [[c|]|]; auto; discriminate.
  - apply getHighlightStyle_no_canvas.
  - apply getHighlightStyle_canvas.
Qed.

Lemma filter_all_true {A} (P : A -> Prop) `{forall a, Decision (P a)}
    (l : list A) :
  Forall P l -> filter P l = l.
Proof.
  induction 1 as [|a l Ha _ IH]; [done|].
  rewrite filter_cons_True by done. by rewrite IH.
Qed.

(** The overlays of page [p + 1] when the highlight set is a batch for
    page index [p]. *)
Lemma pageOverlays_batch s t p bs w h :
  highlights s = newHighlights t p bs w h ->
  pageOverlays s (p + 1)
  = map (fun x => mkOverlay (id x) <$> getHighlightStyle s x) (highlights s).
Proof.
  intros Hs. unfold pageOverlays. f_equal.
  apply filter_all_true, Forall_forall. intros x Hx.
  rewrite Hs in Hx. apply newHighlights_page in Hx as [-> _]. done.
Qed.

(** C4, as the component implements it.  A [highlightAndScroll] for a page
    whose canvas does not exist yet does not fail and installs the batch
    with its source coordinates; a render at that point draws no overlay
    for it; and in any later state in which the batch is still installed
    and the page's canvas exists with size [cw] by [ch], a render draws
    every box of the batch scaled by that size. *)
Theorem pending_batch_is_positioned_once_canvas_exists
    s p bs w h v cw ch :
  canvasRefs s !! (p + 1)%nat = None
  \/ canvasRefs s !! (p + 1)%nat = Some None ->
  highlights v = highlights (highlightAndScroll p bs w h s) ->
  canvasRefs v !! (p + 1)%nat = Some (Some (mkCanvas cw ch)) ->
  highlights (highlightAndScroll p bs w h s) = newHighlights (now s) p bs w h
  /\ pageOverlays (highlightAndScroll p bs w h s) (p + 1)
     = map (fun _ => None) bs
  /\ pageOverlays v (p + 1)
     = map (fun x => Some (mkOverlay (id x) (highlightRect cw ch x)))
           (newHighlights (now s) p bs w h).
Proof.
  intros Hmiss Hv Hc. rewrite highlights_highlightAndScroll in *.
  split; [done|]. split.
  - rewrite (pageOverlays_batch _ (now s) p bs w h)
      by apply highlights_highlightAndScroll.
    rewrite highlights_highlightAndScroll.
    rewrite <- (newHighlights_bbox (now s) p bs w h) at 2.
    rewrite map_map. apply map_ext_in. intros x Hx.
    apply list_elem_of_In, newHighlights_page in Hx as [Hp _].
    rewrite getHighlightStyle_no_canvas; [done|].
    by rewrite Hp, canvasRefs_highlightAndScroll.
  - rewrite (pageOverlays_batch _ (now s) p bs w h) by done.
    rewrite Hv. apply map_ext_in. intros x Hx.
    apply list_elem_of_In, newHighlights_page in Hx as [Hp _].
    rewrite (getHighlightStyle_canvas _ _ (mkCanvas cw ch)); [done|].
    by rewrite Hp.
Qed.

End HighlightGeometry.

(** C3, as stated, fails.  On a 918 by 1188 canvas a highlight whose
    source page width is zero gets a style object, not [null]: the
    horizontal factor is [918 / 0], so [left] and [width] are infinite. *)
Lemma zero_source_width_yields_a_style :
  PDFViewer.sourcePageWidth Scenarios.zeroWidthHighlight = 0%float
  /\ PDFViewer.getHighlightStyle (Scenarios.loadedViewer 0)
       Scenarios.zeroWidthHighlight
     = Some (PDFViewer.mkStyle infinity 150%float infinity 30%float).
Proof. vm_compute. split; reflexivity. Qed.

(** C4, as stated, fails.  The canvas of page 3 does not exist when the
    citation is clicked at 0 ms, and the batch is installed; the page is
    rendered at 9000 ms, after the batch's timer has fired at 8000 ms; the
    batch is gone and no overlay is drawn on the rendered page. *)
Lemma pending_batch_dropped_when_render_is_late :
  PDFViewer.canvasRefs Scenarios.clickBeforeCanvas !! 3%nat = None
  /\ length (PDFViewer.highlights Scenarios.clickBeforeCanvas) = 1%nat
  /\ PDFViewer.canvasRefs Scenarios.renderedAfter9s !! 3%nat
     = Some (Some (PDFViewer.mkCanvas 918%float 1188%float))
  /\ PDFViewer.highlights Scenarios.renderedAfter9s = []
  /\ PDFViewer.pageOverlays Scenarios.renderedAfter9s 3 = [].
Proof. vm_compute. repeat split. Qed.

(** A run that meets the hypotheses of C4: the page is rendered two
    seconds after the click. *)
Lemma pending_batch_is_positioned_once_canvas_exists_witness :
  PDFViewer.pageOverlays Scenarios.renderedAfter2s 3
  = [Some (PDFViewer.mkOverlay "highlight-0-0"
             (PDFViewer.mkStyle 108%float 150%float 342%float 30%float))].
Proof.
  refine (eq_trans
            (proj2 (proj2 (pending_batch_is_positioned_once_canvas_exists
               (PDFViewer.initialViewer 0) 2 [Scenarios.boxA]
               Scenarios.letterWidth Scenarios.letterHeight
               Scenarios.renderedAfter2s 918%float 1188%float
               (or_introl eq_refl) eq_refl eq_refl))) _).
  vm_compute. reflexivity.
Defined.

(** Whatever the arithmetic, the rectangle is the box scaled by the two
    factors [canvasWidth / sourcePageWidth] and
    [canvasHeight / sourcePageHeight]. *)
Lemma highlightRect_factors {num : Type} `{JsNumber num}
    (cw ch : num) (x : @PDFViewer.Highlight num) :
  let b := PDFViewer.bbox x in
  let scaleX := (cw / PDFViewer.sourcePageWidth x)%js in
  let scaleY := (ch / PDFViewer.sourcePageHeight x)%js in
  PDFViewer.highlightRect cw ch x
  = PDFViewer.mkStyle (PDFViewer.x0 b * scaleX)%js (PDFViewer.y0 b * scaleY)%js
      ((PDFViewer.x1 b - PDFViewer.x0 b) * scaleX)%js
      ((PDFViewer.y1 b - PDFViewer.y0 b) * scaleY)%js.
Proof. reflexivity. Qed.




(** Another round trip that binary64 does not close: with factor [1 / 49]
    forward and [49 / 1] back, the coordinate 1 comes back as the float just
    below 1. *)
Example round_trip_rounds_in_binary64 :
  PDFViewer.x1
    (PDFViewer.fromPixelRect
       (PDFViewer.highlightRect 1%float 1%float
          (PDFViewer.mkHighlight "h" 0
             (PDFViewer.mkBBox 0%float 0%float 1%float 1%float)
             49%float 49%float))
       49%float 49%float 1%float 1%float)
  = 0x1.fffffffffffffp-1%float.
Proof. vm_compute. reflexivity. Qed.

(** ** Scroll tracking *)

Lemma keys_bound_lookup {V : Type} (m : gmap nat V) k v :
  m !! k = Some v -> (k < keys_bound m)%nat.
Proof.
  unfold keys_bound. revert k v.
  apply (map_fold_weak_ind
           (fun b (m : gmap nat V) =>
              forall k v, m !! k = Some v -> (k < b)%nat)).
  - intros k v Hk. by rewrite lookup_empty in Hk.
  - intros i x m' r _ IH k v Hk.
    destruct (decide (i = k)) as [->|Hne]; [lia|].
    rewrite lookup_insert_ne in Hk by done.
    specialize (IH k v Hk). lia.
Qed.

Section ScrollTracking.
Context {num : Type} `{JsNumber num}.
Import PDFViewer.

Implicit Types (s : @Viewer num) (c : @Container num).

Lemma firstInTopHalf_scan c (m : gmap nat (option (@PageElement num)))
    (a n k : nat) el :
  (a <= k < a + n)%nat ->
  m !! k = Some (Some el) ->
  inTopHalf c el = true ->
  (forall j el', (a <= j < k)%nat -> m !! j = Some (Some el') ->
                 inTopHalf c el' = false) ->
  firstInTopHalf c (omap (fun i => pair i <$> m !! i) (seq a n)) = Some k.
Proof.
  revert a. induction n as [|n IH]; intros a Hk Hm Hin Hbefore; [lia|].
  cbn [seq omap list_omap].
  destruct (decide (a = k)) as [->|Hne].
  - rewrite Hm. cbn. by rewrite Hin.
  - assert (firstInTopHalf c
              (omap (fun i => pair i <$> m !! i) (seq (S a) n)) = Some k)
      as Hrest.
    { apply IH; [lia|done|done|]. intros j el' Hj. apply Hbefore. lia. }
    destruct (m !! a) as [[el'|]|] eqn:Ha; cbn; [|done|done].
    rewrite (Hbefore a el') by (done || lia). done.
Qed.

Lemma firstInTopHalf_none c (entries : list (nat * option (@PageElement num))) :
  (forall i el, (i, Some el) ∈ entries -> inTopHalf c el = false) ->
  firstInTopHalf c entries = None.
Proof.
  induction entries as [|[i [el|]] rest IH]; intros Hall; cbn; [done| |].
  - rewrite (Hall i el) by left. apply IH. intros j e Hj. apply (Hall j).
    by right.
  - apply IH. intros j e Hj. apply (Hall j). by right.
Qed.

(** C8.  If the wrapper of page index [k] has its top edge in the top half
    of the viewport and no wrapper of a smaller index has, [handleScroll]
    finds [k] and sets the page shown in the toolbar to [k + 1]; for
    [k = 0], the viewport at the top of the document, that is page index 0,
    shown as page 1. *)
Theorem handleScroll_reports_first_page_in_top_half c s k el :
  pageRefs s !! k = Some (Some el) ->
  inTopHalf c el = true ->
  (forall j el', (j < k)%nat -> pageRefs s !! j = Some (Some el') ->
                 inTopHalf c el' = false) ->
  firstInTopHalf c (Object_entries (pageRefs s)) = Some k
  /\ currentPage (handleScroll c s) = (k + 1)%nat
  /\ (k = 0%nat -> currentPage (handleScroll c s) = 1%nat).
Proof.
  intros Hk Hin Hbefore.
  assert (firstInTopHalf c (Object_entries (pageRefs s)) = Some k) as Hfirst.
  { unfold Object_entries. apply (firstInTopHalf_scan c _ 0 _ k el); try done.
    - pose proof (keys_bound_lookup _ _ _ Hk). lia.
    - intros j el' Hj. apply Hbefore. lia. }
  split; [done|]. unfold handleScroll. rewrite Hfirst. cbn.
  split; [done|]. by intros ->.
Qed.

(** X10.  When no wrapper has its top edge in the top half, the page
    shown is left as it was, and so is everything else. *)
Lemma handleScroll_without_match c s :
  (forall i el, pageRefs s !! i = Some (Some el) -> inTopHalf c el = false) ->
  handleScroll c s = s.
Proof.
  intros Hall. unfold handleScroll. rewrite firstInTopHalf_none; [done|].
  intros i el Hi. apply (Hall i). unfold Object_entries in Hi.
  apply list_elem_of_omap in Hi as (j & _ & Hj).
  destruct (pageRefs s !! j) eqn:E; cbn in Hj; [|done].
  by inversion Hj; subst.
Qed.

End ScrollTracking.

Lemma handleScroll_reports_first_page_in_top_half_witness :
  PDFViewer.currentPage
    (PDFViewer.handleScroll Scenarios.scrolledContainer Scenarios.scrolledViewer)
  = 2%nat.
Proof.
  refine (proj1 (proj2 (handleScroll_reports_first_page_in_top_half
            Scenarios.scrolledContainer Scenarios.scrolledViewer 1
            (PDFViewer.mkPageElement 300%float) eq_refl eq_refl _))).
  intros j el' Hj Hl. assert (j = 0%nat) as -> by lia.
  vm_compute in Hl. inversion Hl. reflexivity.
Defined.

(** ** The citation bridge *)

Section CitationBridge.
Context {num : Type} `{JsNumber num}.

(** C10.  For a citation whose [bounding_boxes] is missing or empty,
    [handleCitationClick] leaves the viewer as it is: the same highlights,
    timers and scroll requests; only the log line is written. *)
Theorem handleCitationClick_without_boxes_leaves_viewer
    (citation : @App.Citation num) (w : @App.World num) :
  App.bounding_boxes citation = None
  \/ App.bounding_boxes citation = Some [] ->
  App.pdfViewerRef (App.handleCitationClick citation w) = App.pdfViewerRef w
  /\ App.handleCitationClick citation w
     = App.console_log "[App] Citation clicked:" w.
Proof.
  destruct w as [log [viewer|]];
    intros [Hb|Hb]; unfold App.handleCitationClick; rewrite Hb; done.
Qed.

End CitationBridge.

Lemma handleCitationClick_without_boxes_leaves_viewer_witness :
  App.pdfViewerRef
    (App.handleCitationClick Scenarios.citationWithoutBoxes
       Scenarios.mountedWorld)
  = Some Scenarios.afterFirstClick.
Proof.
  exact (proj1 (handleCitationClick_without_boxes_leaves_viewer
                  Scenarios.citationWithoutBoxes Scenarios.mountedWorld
                  (or_introl eq_refl))).
Defined.

(** ** The citation-marker parser *)

Section MarkerParsing.
Import ChatMessage.
Local Open Scope string_scope.

Implicit Types (s lit rest ds : string) (c : ascii).

Lemma str_app_cons c s t : String c s +:+ t = String c (s +:+ t).
Proof. reflexivity. Qed.

Lemma str_app_nil_l s : "" +:+ s = s.
Proof. reflexivity. Qed.

Lemma str_app_nil_r s : s +:+ "" = s.
Proof. induction s as [|c s IH]; [done|]. by rewrite str_app_cons, IH. Qed.

Lemma str_app_assoc s t u : (s +:+ t) +:+ u = s +:+ (t +:+ u).
Proof. induction s as [|c s IH]; [done|]. by rewrite !str_app_cons, IH. Qed.

Lemma str_length_app s t :
  String.length (s +:+ t) = (String.length s + String.length t)%nat.
Proof. induction s as [|c s IH]; [done|]. rewrite str_app_cons. cbn. lia. Qed.

(** *** Runs of digits *)

Lemma take_digits_eq s : s = fst (take_digits s) +:+ snd (take_digits s).
Proof.
  induction s as [|c s IH]; [done|]. cbn.
  destruct (is_digit c); [|done].
  destruct (take_digits s) as [d r]. cbn in *. by rewrite str_app_cons, <- IH.
Qed.

Lemma take_digits_all s : all_chars is_digit (fst (take_digits s)) = true.
Proof.
  induction s as [|c s IH]; [done|]. cbn.
  destruct (is_digit c) eqn:Hc; [|done].
  destruct (take_digits s) as [d r]. cbn in *. by rewrite Hc, IH.
Qed.

Lemma take_digits_stop s :
  match snd (take_digits s) with
  | String c _ => is_digit c = false
  | "" => True
  end.
Proof.
  induction s as [|c s IH]; [done|]. cbn.
  destruct (is_digit c) eqn:Hc; [|done].
  by destruct (take_digits s) as [d r].
Qed.

(** A run that stops inside [s] is not changed by what follows [s]. *)
Lemma take_digits_app_inner s t c r :
  snd (take_digits s) = String c r ->
  take_digits (s +:+ t) = (fst (take_digits s), String c r +:+ t).
Proof.
  induction s as [|a s IH]; [done|]. rewrite str_app_cons. cbn.
  destruct (is_digit a); [|by intros [= <- <-]].
  destruct (take_digits s) as [d r'] eqn:E. cbn in *. intros ->.
  by rewrite (IH eq_refl).
Qed.

(** Nor is a run followed by a character that is no digit. *)
Lemma take_digits_app_stop s c t :
  is_digit c = false ->
  take_digits (s +:+ String c t)
  = (fst (take_digits s), snd (take_digits s) +:+ String c t).
Proof.
  intros Hc. induction s as [|a s IH].
  { rewrite str_app_nil_l. cbn. by rewrite Hc. }
  rewrite str_app_cons. cbn. destruct (is_digit a); [|done].
  rewrite IH. by destruct (take_digits s).
Qed.

Lemma take_digits_of_digits ds c t :
  all_chars is_digit ds = true -> is_digit c = false ->
  take_digits (ds +:+ String c t) = (ds, String c t).
Proof.
  intros Hds Hc. induction ds as [|a ds IH].
  { rewrite str_app_nil_l. cbn. by rewrite Hc. }
  cbn in Hds. apply andb_true_iff in Hds as [Ha Hds].
  rewrite str_app_cons. cbn. by rewrite Ha, (IH Hds).
Qed.

(** *** Markers *)

Lemma marker_text_app ds rest :
  marker_text ds +:+ rest = String "[" (ds +:+ String "]" rest).
Proof.
  unfold marker_text.
  change (String "[" (ds +:+ "]") +:+ rest = String "[" (ds +:+ String "]" rest)).
  by rewrite str_app_cons, str_app_assoc.
Qed.

Lemma digits_marker_at_Some s ds rest :
  digits_marker_at s = Some (ds, rest) ->
  s = marker_text ds +:+ rest /\ is_digits ds = true.
Proof.
  unfold digits_marker_at. destruct s as [|a s]; [done|].
  destruct (decide (a = "["%char)) as [->|Hne].
  2:{ destruct a as [[] [] [] [] [] [] [] []]; done. }
  pose proof (take_digits_eq s) as Heq.
  pose proof (take_digits_all s) as Hall.
  destruct (take_digits s) as [[|d ds'] r]; [done|].
  cbn [fst snd] in Heq, Hall.
  destruct r as [|b r]; [done|].
  destruct (decide (b = "]"%char)) as [->|Hne].
  2:{ destruct b as [[] [] [] [] [] [] [] []]; done. }
  intros [= <- <-]. split.
  - by rewrite marker_text_app, Heq.
  - unfold is_digits. by rewrite Hall.
Qed.

Lemma digits_marker_at_marker ds rest :
  is_digits ds = true ->
  digits_marker_at (marker_text ds +:+ rest) = Some (ds, rest).
Proof.
  unfold is_digits. intros [Hall Hne]%andb_true_iff.
  rewrite marker_text_app. cbn.
  rewrite take_digits_of_digits by done.
  by destruct ds.
Qed.

Lemma digits_marker_at_shorter s ds rest :
  digits_marker_at s = Some (ds, rest) ->
  (String.length rest < String.length s)%nat.
Proof.
  intros [-> _]%digits_marker_at_Some.
  rewrite marker_text_app. cbn. rewrite str_length_app. cbn. lia.
Qed.

(** A marker found at the start of [s] is found at the start of [s] followed
    by anything. *)
Lemma digits_marker_at_app s t ds rest :
  digits_marker_at s = Some (ds, rest) ->
  digits_marker_at (s +:+ t) = Some (ds, rest +:+ t).
Proof.
  intros [-> Hds]%digits_marker_at_Some.
  rewrite str_app_assoc. by apply digits_marker_at_marker.
Qed.

(** Text that does not start with a marker does not start with one when an
    opening bracket follows it. *)
Lemma digits_marker_at_before_bracket c s t :
  digits_marker_at (String c s) = None ->
  digits_marker_at (String c s +:+ String "[" t) = None.
Proof.
  rewrite str_app_cons. unfold digits_marker_at.
  destruct (decide (c = "["%char)) as [->|Hne].
  2:{ destruct c as [[] [] [] [] [] [] [] []]; done. }
  rewrite take_digits_app_stop by done.
  destruct (take_digits s) as [[|d ds] r]; [done|]. cbn.
  destruct r as [|b r]; [done|]. rewrite str_app_cons.
  destruct (decide (b = "]"%char)) as [->|Hne]; [done|].
  destruct b as [[] [] [] [] [] [] [] []]; done.
Qed.

Lemma marker_at_Some s m rest :
  marker_at s = Some (m, rest) ->
  exists ds, m = marker_text ds /\ is_digits ds = true /\ s = m +:+ rest
             /\ digits_marker_at s = Some (ds, rest).
Proof.
  unfold marker_at. destruct (digits_marker_at s) as [[ds r]|] eqn:E; [|done].
  intros [= <- <-]. apply digits_marker_at_Some in E as HE.
  destruct HE as [-> Hds]. by exists ds.
Qed.

Lemma marker_at_None s : marker_at s = None <-> digits_marker_at s = None.
Proof.
  unfold marker_at. by destruct (digits_marker_at s) as [[ds r]|].
Qed.

Lemma marker_at_marker ds rest :
  is_digits ds = true ->
  marker_at (marker_text ds +:+ rest) = Some (marker_text ds, rest).
Proof.
  intros Hds. unfold marker_at. by rewrite digits_marker_at_marker.
Qed.

Lemma contains_marker_cons c s :
  contains_marker (String c s)
  = match marker_at (String c s) with
    | Some _ => true
    | None => contains_marker s
    end.
Proof. reflexivity. Qed.

Lemma contains_marker_here s :
  contains_marker s = false -> marker_at s = None.
Proof.
  destruct s as [|c s]; [done|]. rewrite contains_marker_cons.
  by destruct (marker_at (String c s)).
Qed.

(** *** The split loop *)

Lemma split_loop_lit sep_at fuel lit s :
  split_loop sep_at fuel lit s
  = match split_loop sep_at fuel "" s with
    | x :: xs => (lit +:+ x) :: xs
    | [] => []
    end.
Proof.
  revert lit s. induction fuel as [|fuel IH]; intros lit s; cbn.
  { by rewrite str_app_nil_l. }
  destruct (sep_at s) as [[m rest]|].
  { by rewrite str_app_nil_r. }
  destruct s as [|c s]; [by rewrite str_app_nil_r|].
  rewrite (IH (lit +:+ String c "")), (IH ("" +:+ String c "")).
  destruct (split_loop sep_at fuel "" s) as [|x xs]; [done|].
  by rewrite str_app_nil_l, str_app_assoc.
Qed.

Lemma split_loop_not_nil sep_at fuel lit s : split_loop sep_at fuel lit s <> [].
Proof.
  revert lit s. induction fuel as [|fuel IH]; intros lit s; cbn; [done|].
  destruct (sep_at s) as [[m rest]|]; [done|].
  destruct s as [|c s]; [done|]. apply IH.
Qed.

Lemma split_loop_fuel fuel fuel' lit s :
  (String.length s < fuel)%nat -> (String.length s < fuel')%nat ->
  split_loop marker_at fuel lit s = split_loop marker_at fuel' lit s.
Proof.
  revert fuel' lit s.
  induction fuel as [|fuel IH]; intros [|fuel'] lit s Hf Hf'; try lia.
  cbn. destruct (marker_at s) as [[m rest]|] eqn:E.
  - apply marker_at_Some in E as (ds & _ & _ & _ & E).
    apply digits_marker_at_shorter in E.
    f_equal. f_equal. apply IH; lia.
  - destruct s as [|c s]; [done|]. cbn in Hf, Hf'. apply IH; lia.
Qed.

Lemma split_unfold s :
  split marker_at s
  = match marker_at s with
    | Some (m, rest) => "" :: m :: split marker_at rest
    | None =>
        match s with
        | "" => [""]
        | String c s' =>
            match split marker_at s' with
            | x :: xs => String c x :: xs
            | [] => []
            end
        end
    end.
Proof.
  unfold split at 1. cbn [split_loop].
  destruct (marker_at s) as [[m rest]|] eqn:E.
  - apply marker_at_Some in E as (ds & _ & _ & _ & E).
    apply digits_marker_at_shorter in E.
    f_equal. f_equal. apply split_loop_fuel; lia.
  - destruct s as [|c s]; [done|].
    rewrite split_loop_lit. unfold split.
    rewrite (split_loop_fuel (String.length (String c s)) (S (String.length s)))
      by (cbn; lia).
    by destruct (split_loop marker_at (S (String.length s)) "" s).
Qed.

Lemma string_length_ind (P : string -> Prop) :
  (forall s, (forall t, (String.length t < String.length s)%nat -> P t) -> P s) ->
  forall s, P s.
Proof.
  intros Hstep s. remember (String.length s) as n eqn:Hn. revert s Hn.
  induction n as [n IH] using lt_wf_ind. intros s ->.
  apply Hstep. intros t Ht. by apply (IH _ Ht).
Qed.

Lemma join_cons x xs : join (x :: xs) = x +:+ join xs.
Proof. reflexivity. Qed.

(** Nothing of the text is lost. *)
Lemma join_split s : join (split marker_at s) = s.
Proof.
  induction s as [s IH] using string_length_ind.
  rewrite split_unfold. destruct (marker_at s) as [[m rest]|] eqn:E.
  - apply marker_at_Some in E as (ds & -> & _ & -> & E).
    apply digits_marker_at_shorter in E.
    by rewrite !join_cons, IH, str_app_nil_l.
  - destruct s as [|c s]; [done|].
    specialize (IH s ltac:(cbn; lia)).
    pose proof (split_loop_not_nil marker_at (S (String.length s)) "" s) as Hne.
    fold (split marker_at s) in Hne.
    destruct (split marker_at s) as [|x xs]; [done|].
    rewrite join_cons in *. by rewrite str_app_cons, IH.
Qed.

(** Literal text and markers alternate, and no literal holds a marker. *)
Lemma split_tokenized s : Tokenized (split marker_at s).
Proof.
  induction s as [s IH] using string_length_ind.
  rewrite split_unfold. destruct (marker_at s) as [[m rest]|] eqn:E.
  - apply marker_at_Some in E as (ds & -> & Hds & -> & E).
    apply digits_marker_at_shorter in E.
    apply Tokenized_marker; [done|done|]. by apply IH.
  - destruct s as [|c s]; [by apply Tokenized_last|].
    pose proof (join_split s) as Hjoin.
    specialize (IH s ltac:(cbn; lia)).
    assert (forall lit tail, s = lit +:+ tail ->
              contains_marker lit = false ->
              contains_marker (String c lit) = false) as Hhead.
    { intros lit tail -> Hlit. rewrite contains_marker_cons.
      destruct (marker_at (String c lit)) as [[m r]|] eqn:Em; [|done].
      apply marker_at_Some in Em as (ds & _ & _ & _ & Em).
      apply (digits_marker_at_app _ tail) in Em.
      apply marker_at_None in E. rewrite str_app_cons in Em. congruence. }
    destruct IH as [lit Hlit|lit ds rest Hlit Hds Hrest];
      rewrite join_cons in Hjoin.
    + apply Tokenized_last. by apply (Hhead lit _ (eq_sym Hjoin)).
    + apply Tokenized_marker; [|done|done]. by apply (Hhead lit _ (eq_sym Hjoin)).
Qed.

(** Text without a marker is one literal. *)
Lemma split_no_marker lit :
  contains_marker lit = false -> split marker_at lit = [lit].
Proof.
  induction lit as [|c lit IH]; [done|].
  rewrite contains_marker_cons, split_unfold.
  destruct (marker_at (String c lit)); [done|]. intros Hlit.
  by rewrite IH.
Qed.

(** A marker that follows marker-free text is split off, and the rest is
    split on its own. *)
Lemma split_marker_step lit ds rest :
  contains_marker lit = false -> is_digits ds = true ->
  split marker_at (lit +:+ marker_text ds +:+ rest)
  = lit :: marker_text ds :: split marker_at rest.
Proof.
  intros Hlit Hds. induction lit as [|c lit IH].
  - rewrite str_app_nil_l, split_unfold. by rewrite marker_at_marker.
  - rewrite contains_marker_cons in Hlit.
    destruct (marker_at (String c lit)) eqn:E; [done|].
    rewrite split_unfold.
    assert (marker_at (String c lit +:+ marker_text ds +:+ rest) = None) as ->.
    { apply marker_at_None. rewrite marker_text_app.
      apply digits_marker_at_before_bracket. by apply marker_at_None. }
    rewrite str_app_cons, (IH Hlit). done.
Qed.

(** *** Matching a single part *)

Lemma citationMatch_Some part ds :
  citationMatch part = Some ds -> part = marker_text ds /\ is_digits ds = true.
Proof.
  unfold citationMatch.
  destruct (digits_marker_at part) as [[ds' [|c r]]|] eqn:E; [|done|done].
  intros [= ->]. apply digits_marker_at_Some in E as [-> Hds].
  by rewrite str_app_nil_r.
Qed.

Lemma citationMatch_marker ds :
  is_digits ds = true -> citationMatch (marker_text ds) = Some ds.
Proof.
  intros Hds. unfold citationMatch.
  rewrite <- (str_app_nil_r (marker_text ds)).
  by rewrite digits_marker_at_marker.
Qed.

Lemma citationMatch_literal lit :
  contains_marker lit = false -> citationMatch lit = None.
Proof.
  intros Hlit%contains_marker_here%marker_at_None.
  unfold citationMatch. by rewrite Hlit.
Qed.

(** *** Text that the markdown renderer leaves alone *)

Lemma all_chars_app f s t :
  all_chars f (s +:+ t) = all_chars f s && all_chars f t.
Proof.
  induction s as [|c s IH]; [done|].
  rewrite str_app_cons. cbn. by rewrite IH, andb_assoc.
Qed.

Lemma all_chars_impl (f g : ascii -> bool) s :
  (forall c, f c = true -> g c = true) ->
  all_chars f s = true -> all_chars g s = true.
Proof.
  intros Hfg. induction s as [|c s IH]; [done|]. cbn.
  intros [Hc Hs]%andb_true_iff. by rewrite (Hfg c Hc), (IH Hs).
Qed.

Lemma is_digit_plain c : is_digit c = true -> plain_char c = true.
Proof. destruct c as [[] [] [] [] [] [] [] []]; done. Qed.

Lemma marker_text_plain ds :
  is_digits ds = true -> all_chars plain_char (marker_text ds) = true.
Proof.
  unfold is_digits. intros [Hds _]%andb_true_iff.
  unfold marker_text. rewrite !all_chars_app.
  by rewrite (all_chars_impl _ _ _ is_digit_plain Hds).
Qed.

Lemma delimited_at_bold_plain s :
  all_chars plain_char s = true -> delimited_at "**" "**" s = None.
Proof.
  destruct s as [|c s]; [done|]. cbn.
  intros [Hc _]%andb_true_iff. unfold delimited_at. cbn.
  destruct c as [[] [] [] [] [] [] [] []]; done.
Qed.

Lemma delimited_at_open_plain s :
  all_chars plain_char s = true -> delimited_at bold_open bold_close s = None.
Proof.
  destruct s as [|c s]; [done|]. cbn.
  intros [Hc _]%andb_true_iff. unfold delimited_at. cbn.
  destruct c as [[] [] [] [] [] [] [] []]; done.
Qed.

Lemma replace_bold_plain fuel s :
  all_chars plain_char s = true -> replace_bold fuel s = s.
Proof.
  revert s. induction fuel as [|fuel IH]; intros s Hs; [done|].
  cbn [replace_bold]. rewrite delimited_at_bold_plain by done.
  destruct s as [|c s]; [done|]. cbn in Hs.
  apply andb_true_iff in Hs as [_ Hs]. by rewrite IH.
Qed.

Lemma split_bold_plain fuel lit s :
  all_chars plain_char s = true ->
  split_loop bold_at fuel lit s = [lit +:+ s].
Proof.
  revert lit s. induction fuel as [|fuel IH]; intros lit s Hs; [done|].
  cbn [split_loop]. unfold bold_at at 1.
  rewrite delimited_at_open_plain by done.
  destruct s as [|c s]; [by rewrite str_app_nil_r|]. cbn in Hs.
  apply andb_true_iff in Hs as [_ Hs].
  rewrite IH by done. by rewrite str_app_assoc.
Qed.

Lemma boldMatch_plain s : all_chars plain_char s = true -> boldMatch s = None.
Proof.
  induction s as [|c s IH]; [done|]. intros Hs.
  cbn [boldMatch]. rewrite delimited_at_open_plain by done.
  cbn in Hs. apply andb_true_iff in Hs as [_ Hs]. by apply IH.
Qed.

(** Text without asterisks and without the bold bracket is rendered as
    itself. *)
Lemma renderBasicMarkdown_plain s :
  all_chars plain_char s = true -> s <> "" ->
  renderBasicMarkdown s = Parts [PlainText s].
Proof.
  intros Hs Hne. unfold renderBasicMarkdown.
  destruct s as [|c s]; [done|].
  rewrite replace_bold_plain by done. unfold split.
  rewrite split_bold_plain by done. rewrite str_app_nil_l. cbn [imap].
  by rewrite boldMatch_plain.
Qed.

(** *** Parts, tokens and what is rendered *)

Lemma renderPart_present {C : Type} (table : gmap string C) index part :
  renderPart table index part = present index (tokenOfPart table part).
Proof.
  unfold renderPart, tokenOfPart.
  destruct (citationMatch part) as [ds|] eqn:E; [|done].
  apply citationMatch_Some in E as [-> _].
  by destruct (table !! ds).
Qed.

Lemma parsedContent_presents_tokens {C : Type} (message : Message C) table :
  citations message = Some table -> isUser message = false ->
  parsedContent message
  = TextBlock (imap present (parse (content message) table)).
Proof.
  intros Ht Hu. unfold parsedContent, parse. rewrite Hu, Ht. f_equal.
  rewrite imap_fmap. apply imap_ext. intros i part _. apply renderPart_present.
Qed.

End MarkerParsing.

(** C6.  Splitting loses no text and yields literal text and markers in
    alternation, a marker being a bracketed run of digits and a literal
    holding no marker; a literal part is a literal token and a marker part a
    reference token resolved in the table; two adjacent markers are two
    parts with an empty literal between them; the component renders the
    tokens in order; and the answer [See [1] and [2].] with citations for
    1 and 2 gives the five tokens of the example. *)
Theorem parse_tokenizes_literals_and_markers {C : Type} :
  (forall text,
     ChatMessage.join (ChatMessage.split ChatMessage.marker_at text) = text
     /\ ChatMessage.Tokenized (ChatMessage.split ChatMessage.marker_at text))
  /\ (forall (table : gmap string C) lit,
        ChatMessage.contains_marker lit = false ->
        ChatMessage.tokenOfPart table lit = ChatMessage.Literal lit)
  /\ (forall (table : gmap string C) ds,
        ChatMessage.is_digits ds = true ->
        ChatMessage.tokenOfPart table (ChatMessage.marker_text ds)
        = ChatMessage.Reference ds (table !! ds))
  /\ (forall d1 d2 rest,
        ChatMessage.is_digits d1 = true -> ChatMessage.is_digits d2 = true ->
        ChatMessage.split ChatMessage.marker_at
          (ChatMessage.marker_text d1 +:+ ChatMessage.marker_text d2 +:+ rest)
        = "" :: ChatMessage.marker_text d1 :: "" :: ChatMessage.marker_text d2
             :: ChatMessage.split ChatMessage.marker_at rest)
  /\ (forall (message : ChatMessage.Message C) table,
        ChatMessage.citations message = Some table ->
        ChatMessage.isUser message = false ->
        ChatMessage.parsedContent message
        = ChatMessage.TextBlock
            (imap ChatMessage.present
               (ChatMessage.parse (ChatMessage.content message) table)))
  /\ (forall c1 c2 : C,
        ChatMessage.parse "See [1] and [2]." (<["1" := c1]> (<["2" := c2]> ∅))
        = [ChatMessage.Literal "See "; ChatMessage.Reference "1" (Some c1);
           ChatMessage.Literal " and "; ChatMessage.Reference "2" (Some c2);
           ChatMessage.Literal "."])
  /\ (forall (c1 c2 : C) err,
        ChatMessage.parsedContent
          (ChatMessage.mkMessage "assistant" "See [1] and [2]."
             (Some (<["1" := c1]> (<["2" := c2]> ∅))) err)
        = ChatMessage.TextBlock
            [ChatMessage.TextSpan 0
               (ChatMessage.Parts [ChatMessage.PlainText "See "]);
             ChatMessage.CitationButton 1 c1 "1";
             ChatMessage.TextSpan 2
               (ChatMessage.Parts [ChatMessage.PlainText " and "]);
             ChatMessage.CitationButton 3 c2 "2";
             ChatMessage.TextSpan 4
               (ChatMessage.Parts [ChatMessage.PlainText "."])]).
Proof.
  split; [intros text; split; [apply join_split | apply split_tokenized]|].
  split.
  { intros table lit Hlit. unfold ChatMessage.tokenOfPart.
    by rewrite citationMatch_literal. }
  split.
  { intros table ds Hds. unfold ChatMessage.tokenOfPart.
    by rewrite citationMatch_marker. }
  split.
  { intros d1 d2 rest H1 H2.
    etrans; [exact (split_marker_step "" d1 _ eq_refl H1)|].
    do 2 f_equal. exact (split_marker_step "" d2 _ eq_refl H2). }
  split; [apply @parsedContent_presents_tokens|].
  split; [intros c1 c2|intros c1 c2 err]; vm_compute; reflexivity.
Qed.

(** C7.  A marker whose digits are not a key of the table raises nothing:
    its token is a reference without citation, and the component renders
    it as a [<span>] holding the marker's own text, the element literal text
    gets, and not as a button.  The answer [See [9].] with a citation for 1
    only gives a reference token for 9 without citation, rendered as the
    text [[9]]. *)
Theorem unresolved_marker_is_plain_text {C : Type} :
  (forall (table : gmap string C) ds index,
     ChatMessage.is_digits ds = true -> table !! ds = None ->
     ChatMessage.tokenOfPart table (ChatMessage.marker_text ds)
     = ChatMessage.Reference ds None
     /\ ChatMessage.renderPart table index (ChatMessage.marker_text ds)
        = ChatMessage.TextSpan index
            (ChatMessage.Parts
               [ChatMessage.PlainText (ChatMessage.marker_text ds)]))
  /\ (forall (table : gmap string C) lit index,
        ChatMessage.contains_marker lit = false ->
        ChatMessage.renderPart table index lit
        = ChatMessage.TextSpan index (ChatMessage.renderBasicMarkdown lit))
  /\ (forall c1 : C,
        ChatMessage.parse "See [9]." (<["1" := c1]> ∅)
        = [ChatMessage.Literal "See "; ChatMessage.Reference "9" None;
           ChatMessage.Literal "."])
  /\ (forall (c1 : C) err,
        ChatMessage.parsedContent
          (ChatMessage.mkMessage "assistant" "See [9]."
             (Some (<["1" := c1]> ∅)) err)
        = ChatMessage.TextBlock
            [ChatMessage.TextSpan 0
               (ChatMessage.Parts [ChatMessage.PlainText "See "]);
             ChatMessage.TextSpan 1
               (ChatMessage.Parts [ChatMessage.PlainText "[9]"]);
             ChatMessage.TextSpan 2
               (ChatMessage.Parts [ChatMessage.PlainText "."])]).
Proof.
  split.
  { intros table ds index Hds Hnone.
    unfold ChatMessage.tokenOfPart, ChatMessage.renderPart.
    rewrite citationMatch_marker, Hnone by done. split; [done|].
    rewrite renderBasicMarkdown_plain; [done| |done].
    by apply marker_text_plain. }
  split.
  { intros table lit index Hlit. unfold ChatMessage.renderPart.
    by rewrite citationMatch_literal. }
  split; [intros c1|intros c1 err]; vm_compute; reflexivity.
Qed.

(** ** The zoom buttons *)

Lemma press_zoomLevels b s :
  In s Zoom.zoomLevels -> In (Zoom.press b s) Zoom.zoomLevels.
Proof.
  unfold Zoom.zoomLevels. cbn [In]. intros Hs.
  repeat (destruct Hs as [<-|Hs]; [destruct b; vm_compute; tauto|]).
  contradiction.
Qed.

Lemma scaleAfter_zoomLevels clicks : In (Zoom.scaleAfter clicks) Zoom.zoomLevels.
Proof.
  unfold Zoom.scaleAfter.
  assert (In Zoom.initialScale Zoom.zoomLevels) as Hinit
    by (vm_compute; tauto).
  revert Hinit. generalize Zoom.initialScale.
  induction clicks as [|b clicks IH]; intros s Hs; [done|].
  cbn. apply IH, press_zoomLevels, Hs.
Qed.

(** X1.  Whatever the sequence of clicks on the zoom buttons, the scale is
    one of the quarter steps from 0.5 to 3: it never leaves [0.5, 3] and is
    never NaN. *)
Theorem zoom_scale_stays_within_bounds (clicks : list Zoom.Button) :
  In (Zoom.scaleAfter clicks) Zoom.zoomLevels
  /\ (0.5 <=? Zoom.scaleAfter clicks)%float = true
  /\ (Zoom.scaleAfter clicks <=? 3)%float = true.
Proof.
  pose proof (scaleAfter_zoomLevels clicks) as Hs. split; [done|].
  revert Hs. generalize (Zoom.scaleAfter clicks). intros s.
  unfold Zoom.zoomLevels. cbn [In]. intros Hs.
  repeat (destruct Hs as [<-|Hs]; [vm_compute; tauto|]).
  contradiction.
Qed.

(** X2.  At every scale the buttons can reach, zooming in and then out
    gives the scale back unless it was 3, zooming out and then in gives it
    back unless it was 0.5, and at the two ends the button that would leave
    the range changes nothing. *)
Theorem zoom_steps_undo_each_other (clicks : list Zoom.Button) :
  let s := Zoom.scaleAfter clicks in
  (s <> 3%float -> Zoom.zoomOut (Zoom.zoomIn s) = s)
  /\ (s <> 0.5%float -> Zoom.zoomIn (Zoom.zoomOut s) = s)
  /\ (s = 3%float -> Zoom.zoomIn s = s)
  /\ (s = 0.5%float -> Zoom.zoomOut s = s).
Proof.
  intros s. pose proof (scaleAfter_zoomLevels clicks) as Hs.
  fold s in Hs. revert Hs. generalize s. clear s. intros s.
  unfold Zoom.zoomLevels. cbn [In]. intros Hs.
  repeat (destruct Hs as [<-|Hs];
          [repeat split; intros E; try (vm_compute; reflexivity);
           exfalso; (apply E; reflexivity) || (vm_compute in E; discriminate)|]).
  contradiction.
Qed.

(** ** What every run keeps true of the timers *)

Section TimerQueue.
Context {num : Type} `{JsNumber num}.
Import PDFViewer.

Implicit Types (s v : @Viewer num) (q : list Timer) (tm : Timer).

Lemma enqueue_firingOrder tm q :
  Timing.firingOrder q -> Timing.firingOrder (enqueue tm q).
Proof.
  induction q as [|y q IH]; cbn.
  - intros _. split; [|done]. intros x Hx. by apply elem_of_nil in Hx.
  - intros [Hy Hq]. destruct (due y <=? due tm) eqn:E; cbn.
    + apply Z.leb_le in E. split; [|by apply IH].
      intros x [->|Hx]%enqueue_elem; [done|by apply Hy].
    + apply Z.leb_gt in E. split; [|done].
      intros x [->|Hx]%elem_of_cons; [lia|].
      specialize (Hy x Hx). lia.
Qed.

Lemma enqueue_not_nil tm q : enqueue tm q <> [].
Proof. destruct q as [|y q]; cbn; [done|]. by destruct (due y <=? due tm). Qed.

(** On a queue in firing order, [fireDue] leaves exactly the timers due
    after [t], moves the clock no further than [t] and never back. *)
Lemma fireDue_timers t q s :
  Timing.firingOrder q ->
  Timing.firingOrder (timers (fireDue t q s))
  /\ (forall tm, tm ∈ timers (fireDue t q s) <-> tm ∈ q /\ t < due tm)
  /\ now s <= now (fireDue t q s) <= Z.max (now s) t.
Proof.
  revert s. induction q as [|y q IH]; intros s Hq; cbn [fireDue].
  - cbn. split; [done|]. split; [|lia].
    intros tm. rewrite elem_of_nil. tauto.
  - destruct Hq as [Hy Hq]. destruct (due y <=? t) eqn:E.
    + apply Z.leb_le in E.
      set (s1 := runCallback (callback y)
                   (setTimers q (setClock (Z.max (now s) (due y)) s))).
      assert (now s1 = Z.max (now s) (due y)) as Hs1
        by (unfold s1; by destruct (callback y)).
      destruct (IH s1 Hq) as (Hs & Hm & Hn).
      split; [done|]. split.
      * intros tm. rewrite Hm, elem_of_cons. split; [tauto|].
        intros [[->|Htm] Ht]; [lia|done].
      * lia.
    + apply Z.leb_gt in E. cbn. split; [done|]. split; [|lia].
      intros tm. split; [|tauto]. intros Htm. split; [done|].
      apply elem_of_cons in Htm as [->|Htm]; [done|].
      specialize (Hy tm Htm). lia.
Qed.

Lemma now_advanceTo t s :
  Timing.firingOrder (timers s) -> now (advanceTo t s) = Z.max (now s) t.
Proof.
  intros Hq. unfold advanceTo. cbn.
  destruct (fireDue_timers t (timers s) s Hq) as (_ & _ & Hn). lia.
Qed.

Lemma timers_advanceTo t s :
  timers (advanceTo t s) = timers (fireDue t (timers s) s).
Proof. reflexivity. Qed.

Lemma step_wellTimed e s : Timing.wellTimed s -> Timing.wellTimed (step e s).
Proof.
  intros (Hq & Hdue & Hshown).
  destruct e as [p bs w h| |t|c|n el|n w h]; cbn [step].
  - unfold Timing.wellTimed.
    rewrite timers_highlightAndScroll, now_highlightAndScroll.
    split; [by apply enqueue_firingOrder|]. split.
    + intros tm [->|Htm]%enqueue_elem; [cbn; lia|by apply Hdue].
    + intros E. by apply enqueue_not_nil in E.
  - split; [exact Hq|]. split; [exact Hdue|]. done.
  - destruct (fireDue_timers t (timers s) s Hq) as (Hs & Hm & Hn).
    unfold Timing.wellTimed.
    rewrite timers_advanceTo, now_advanceTo, highlights_advanceTo by done.
    split; [done|]. split.
    + intros tm [Htm Ht]%Hm. specialize (Hdue tm Htm). lia.
    + intros E. destruct (timers s) as [|y q] eqn:Eq; [by apply Hshown|].
      destruct (due y <=? t) eqn:Ey; [done|].
      cbn [fireDue] in E. by rewrite Ey in E.
  - unfold handleScroll.
    by destruct (firstInTopHalf c (Object_entries (pageRefs s))).
  - done.
  - unfold renderPageDone. by destruct (canvasRefs s !! n) as [[?|]|].
Qed.

Lemma run_wellTimed es s : Timing.wellTimed s -> Timing.wellTimed (run es s).
Proof.
  revert s. induction es as [|e es IH]; intros s Hs; [done|].
  cbn. apply IH, step_wellTimed, Hs.
Qed.

Lemma idle_wellTimed s :
  timers s = [] -> highlights s = [] -> Timing.wellTimed s.
Proof.
  intros Hq Hh. unfold Timing.wellTimed. rewrite Hq.
  split; [done|]. split; [|done]. intros tm Htm. by apply elem_of_nil in Htm.
Qed.

Lemma now_step e s : Timing.firingOrder (timers s) -> now s <= now (step e s).
Proof.
  intros Hq. destruct e as [p bs w h| |t|c|n el|n w h]; cbn [step].
  - by rewrite now_highlightAndScroll.
  - done.
  - rewrite now_advanceTo by done. lia.
  - unfold handleScroll.
    by destruct (firstInTopHalf c (Object_entries (pageRefs s))).
  - done.
  - unfold renderPageDone. by destruct (canvasRefs s !! n) as [[?|]|].
Qed.

Lemma now_run es s : Timing.wellTimed s -> now s <= now (run es s).
Proof.
  revert s. induction es as [|e es IH]; intros s Hs; [done|].
  cbn. etrans; [apply (now_step e), Hs|]. apply IH, step_wellTimed, Hs.
Qed.

(** X3.  In every run that starts with no timer pending and no highlight
    shown (a freshly mounted or freshly loaded viewer), the clock never goes
    back, every pending timer is due in the future and at most 8000 ms
    ahead, the queue is in firing order, and whenever a highlight is shown a
    timer is pending. *)
Theorem run_keeps_timers_in_order s0 (es : list Event) :
  timers s0 = [] -> highlights s0 = [] ->
  let s := run es s0 in
  now s0 <= now s
  /\ Timing.firingOrder (timers s)
  /\ (forall tm, tm ∈ timers s -> now s < due tm <= now s + 8000)
  /\ (highlights s <> [] -> timers s <> []).
Proof.
  intros Hq0 Hh0 s.
  pose proof (run_wellTimed es _ (idle_wellTimed _ Hq0 Hh0))
    as (Hq & Hdue & Hshown).
  split; [apply (now_run es _ (idle_wellTimed _ Hq0 Hh0))|].
  split; [done|]. split; [done|]. intros Hh E. by apply Hh, Hshown.
Qed.

(** X4.  Nothing stays for ever: from any point of such a run, once the
    clock has run 8000 ms further no highlight is shown and no timer is
    pending. *)
Theorem highlights_gone_within_8_seconds s0 (es : list Event) (t : Z) :
  timers s0 = [] -> highlights s0 = [] ->
  now (run es s0) + 8000 <= t ->
  highlights (advanceTo t (run es s0)) = []
  /\ timers (advanceTo t (run es s0)) = [].
Proof.
  intros Hq0 Hh0.
  pose proof (run_wellTimed es _ (idle_wellTimed _ Hq0 Hh0)) as HW.
  revert HW. generalize (run es s0). intros s (Hq & Hdue & Hshown) Ht.
  destruct (fireDue_timers t (timers s) s Hq) as (_ & Hm & _).
  split.
  - rewrite highlights_advanceTo.
    destruct (timers s) as [|y q] eqn:Eq; [by apply Hshown|].
    assert (due y <= t) as ->%Z.leb_le; [|done].
    specialize (Hdue y ltac:(left)). lia.
  - rewrite timers_advanceTo. apply elem_of_nil_inv.
    intros y [Hy Hlt]%Hm. specialize (Hdue y Hy). lia.
Qed.

End TimerQueue.

(** ** Pages and overlays *)

Section PagesAndOverlays.
Context {num : Type} `{JsNumber num}.
Import PDFViewer.

Implicit Types (s v : @Viewer num) (bs : list (@BoundingBox num)).

Lemma filter_all_false {A} (P : A -> Prop) `{forall a, Decision (P a)}
    (l : list A) :
  Forall (fun a => ~ P a) l -> filter P l = [].
Proof.
  induction 1 as [|a l Ha _ IH]; [done|].
  rewrite filter_cons_False by done. done.
Qed.

Lemma pageOverlays_other_page s t p bs w h n :
  highlights s = newHighlights t p bs w h -> n <> (p + 1)%nat ->
  pageOverlays s n = [].
Proof.
  intros Hs Hn. unfold pageOverlays.
  rewrite filter_all_false; [done|]. apply Forall_forall. intros x Hx.
  rewrite Hs in Hx. apply newHighlights_page in Hx as [-> _]. lia.
Qed.

Lemma pushPages_seq remaining i pages :
  Document.pushPages remaining i pages = pages ++ seq i remaining.
Proof.
  revert i pages. induction remaining as [|r IH]; intros i pages; cbn.
  - by rewrite app_nil_r.
  - by rewrite IH, <- app_assoc.
Qed.

(** X6.  A batch is drawn on the page it was requested for and on no
    other: after [highlightAndScroll] for page index [p], page [p + 1] gets
    one overlay slot per bounding box, in order and keyed by the highlight
    ids, and every other page gets none. *)
Theorem batch_is_drawn_on_its_page_only s p bs w h (n : nat) :
  let s' := highlightAndScroll p bs w h s in
  (n <> (p + 1)%nat -> pageOverlays s' n = [])
  /\ length (pageOverlays s' (p + 1)) = length bs
  /\ pageOverlays s' (p + 1)
     = map (fun x => mkOverlay (id x) <$> getHighlightStyle s' x)
           (newHighlights (now s) p bs w h).
Proof.
  intros s'. pose proof (highlights_highlightAndScroll p bs w h s) as Hs.
  fold s' in Hs. split; [|split].
  - by apply (pageOverlays_other_page _ _ _ _ _ _ _ Hs).
  - rewrite (pageOverlays_batch _ _ _ _ _ _ Hs), Hs, length_map.
    apply newHighlights_length.
  - by rewrite (pageOverlays_batch _ _ _ _ _ _ Hs), Hs.
Qed.

(** X7.  After a document of [numPages] pages has loaded, the pages shown
    are 1 to [numPages] in order and the toolbar total is [numPages]; a
    highlight request for page index [p] then puts its overlays on page
    [p + 1] alone, and when [p] is not a page of the document it is drawn
    nowhere, without any error. *)
Theorem loaded_document_shows_batch_on_one_page
    (pdfUrl : string) (numPages : nat) (t0 : Z) p bs w h :
  pdfUrl <> ""%string ->
  let c := Document.open (num:=num) pdfUrl (Some numPages) t0 in
  let s' := highlightAndScroll p bs w h (Document.viewer c) in
  renderedPages (Document.viewer c) = seq 1 numPages
  /\ Document.totalPages c = numPages
  /\ renderPages s'
     = Pages (map (fun pageNum =>
                     (pageNum,
                      if decide (pageNum = (p + 1)%nat)
                      then map (fun x => mkOverlay (id x)
                                           <$> getHighlightStyle s' x)
                               (newHighlights t0 p bs w h)
                      else []))
                  (seq 1 numPages))
  /\ ((numPages <= p)%nat ->
      renderPages s' = Pages (map (fun pageNum => (pageNum, [])) (seq 1 numPages))).
Proof.
  intros Hurl c s'.
  assert (Document.viewer c
          = Document.setRenderedPages (seq 1 numPages)
              (Document.setIsLoading false
                 (Document.setRenderedPages []
                    (Document.setIsLoading true (initialViewer t0))))) as Hc.
  { unfold c, Document.open, Document.loadStart.
    apply String.eqb_neq in Hurl. rewrite Hurl. cbn.
    by rewrite pushPages_seq. }
  assert (renderedPages s' = seq 1 numPages /\ isLoading s' = false
          /\ now (Document.viewer c) = t0) as (Hpages & Hload & Hnow).
  { unfold s'. rewrite Hc. unfold highlightAndScroll. cbn.
    by destruct (_ !! p) as [[?|]|]. }
  pose proof (highlights_highlightAndScroll p bs w h (Document.viewer c))
    as Hs. fold s' in Hs. rewrite Hnow in Hs.
  assert (forall pageNum,
            pageOverlays s' pageNum
            = if decide (pageNum = (p + 1)%nat)
              then map (fun x => mkOverlay (id x) <$> getHighlightStyle s' x)
                       (newHighlights t0 p bs w h)
              else []) as Hov.
  { intros pageNum. destruct (decide (pageNum = (p + 1)%nat)) as [->|Hne].
    - by rewrite (pageOverlays_batch _ _ _ _ _ _ Hs), Hs.
    - by apply (pageOverlays_other_page _ _ _ _ _ _ _ Hs). }
  split; [by rewrite Hc|]. split; [done|]. split.
  - unfold renderPages. rewrite Hload, Hpages. f_equal.
    apply map_ext. intros pageNum. by rewrite Hov.
  - intros Hp. unfold renderPages. rewrite Hload, Hpages. f_equal.
    apply map_ext_in. intros pageNum [_ Hin]%in_seq. rewrite Hov.
    destruct (decide (pageNum = (p + 1)%nat)); [lia|done].
Qed.

(** X8.  A failed load leaves the viewer out of the loading state with no
    page listed, so that nothing at all is rendered in the page list,
    whatever is highlighted later. *)
Theorem failed_load_shows_no_page (pdfUrl : string) (t0 : Z) p bs w h :
  pdfUrl <> ""%string ->
  let c := Document.open (num:=num) pdfUrl None t0 in
  isLoading (Document.viewer c) = false
  /\ Document.pdfDoc c = None
  /\ renderPages (Document.viewer c) = Pages []
  /\ renderPages (highlightAndScroll p bs w h (Document.viewer c)) = Pages [].
Proof.
  intros Hurl c. unfold c, Document.open, Document.loadStart.
  apply String.eqb_neq in Hurl. rewrite Hurl. cbn.
  unfold renderPages, highlightAndScroll. cbn. done.
Qed.

End PagesAndOverlays.

Lemma loaded_document_shows_batch_on_one_page_witness :
  PDFViewer.renderedPages
    (Document.viewer (Document.open (num:=float) "/api/pdf/abc" (Some 3%nat) 0))
  = [1; 2; 3]%nat.
Proof.
  exact (proj1 (loaded_document_shows_batch_on_one_page (num:=float)
                  "/api/pdf/abc" 3%nat 0 7%nat [Scenarios.boxA]
                  Scenarios.letterWidth Scenarios.letterHeight
                  ltac:(discriminate))).
Defined.

Lemma failed_load_shows_no_page_witness :
  PDFViewer.renderPages
    (Document.viewer (Document.open (num:=float) "/api/pdf/abc" None 0))
  = PDFViewer.Pages [].
Proof.
  exact (proj1 (proj2 (proj2
           (failed_load_shows_no_page (num:=float) "/api/pdf/abc" 0 0%nat
              [Scenarios.boxA] Scenarios.letterWidth Scenarios.letterHeight
              ltac:(discriminate))))).
Defined.

(** ** More on scrolling and navigation *)

Section ScrollAndNavigate.
Context {num : Type} `{JsNumber num}.
Import PDFViewer.

Implicit Types (s v : @Viewer num) (c : @Container num).

Lemma firstInTopHalf_Some c
    (entries : list (nat * option (@PageElement num))) k :
  firstInTopHalf c entries = Some k ->
  exists el, (k, Some el) ∈ entries /\ inTopHalf c el = true.
Proof.
  induction entries as [|[i [el|]] rest IH]; cbn; [done| |].
  - destruct (inTopHalf c el) eqn:E.
    + intros [= ->]. exists el. split; [left|done].
    + intros [el' [Hin Hel]]%IH. exists el'. split; [by right|done].
  - intros [el' [Hin Hel]]%IH. exists el'. split; [by right|done].
Qed.

Lemma Object_entries_lookup {V : Type} (m : gmap nat V) (k : nat) (x : V) :
  (k, x) ∈ Object_entries m -> m !! k = Some x.
Proof.
  unfold Object_entries. intros (j & _ & Hj)%list_elem_of_omap.
  destruct (m !! j) eqn:E; cbn in Hj; [|done]. by inversion Hj; subst.
Qed.

(** X9.  [handleScroll] changes nothing but the page indicator, and when it
    changes the indicator the new value is [k + 1] for a page wrapper [k]
    that is mounted and has its top edge in the top half of the viewport:
    a missing or [null] wrapper is never reported. *)
Theorem handleScroll_only_moves_page_indicator c s :
  handleScroll c s = setCurrentPage (currentPage (handleScroll c s)) s
  /\ (currentPage (handleScroll c s) <> currentPage s ->
      exists k el,
        pageRefs s !! k = Some (Some el) /\ inTopHalf c el = true
        /\ currentPage (handleScroll c s) = (k + 1)%nat).
Proof.
  unfold handleScroll.
  destruct (firstInTopHalf c (Object_entries (pageRefs s))) as [k|] eqn:E.
  - split; [done|]. intros _.
    apply firstInTopHalf_Some in E as (el & Hin & Hel).
    exists k, el. split; [by apply Object_entries_lookup|]. done.
  - split; [by destruct s|]. done.
Qed.

(** X11.  [highlightAndScroll] asks for a scroll to the target page exactly
    when that page's wrapper is mounted; with the wrapper missing or [null]
    no scroll is requested and nothing fails, and in both cases the batch
    is installed and the page indicator, the refs and the clock are left as
    they were. *)
Theorem navigate_scrolls_only_to_mounted_page s p bs w h :
  let s' := highlightAndScroll p bs w h s in
  scrollRequests s'
  = scrollRequests s
    ++ match pageRefs s !! p with Some (Some _) => [p] | _ => [] end
  /\ highlights s' = newHighlights (now s) p bs w h
  /\ currentPage s' = currentPage s
  /\ pageRefs s' = pageRefs s
  /\ canvasRefs s' = canvasRefs s
  /\ renderedPages s' = renderedPages s
  /\ now s' = now s.
Proof.
  intros s'. unfold s', highlightAndScroll. cbn.
  destruct (pageRefs s !! p) as [[?|]|]; cbn; by rewrite ?app_nil_r.
Qed.

End ScrollAndNavigate.

Lemma handleScroll_without_match_witness :
  PDFViewer.handleScroll Runs.midPageContainer Runs.midPageViewer
  = Runs.midPageViewer.
Proof.
  apply handleScroll_without_match. intros i el Hi.
  unfold Runs.midPageViewer in Hi. cbn [PDFViewer.pageRefs] in Hi.
  destruct (decide (i = 0%nat)) as [->|H0].
  { rewrite lookup_insert_eq in Hi. by inversion Hi. }
  rewrite lookup_insert_ne in Hi by done.
  destruct (decide (i = 1%nat)) as [->|H1].
  { rewrite lookup_insert_eq in Hi. by inversion Hi. }
  rewrite lookup_insert_ne in Hi by done. by rewrite lookup_empty in Hi.
Defined.

Lemma expiry_without_older_timers_witness :
  PDFViewer.highlights (PDFViewer.advanceTo 7999 Scenarios.afterFirstClick)
  = PDFViewer.newHighlights 0 0 [Scenarios.boxA]
      Scenarios.letterWidth Scenarios.letterHeight
  /\ PDFViewer.highlights (PDFViewer.advanceTo 8000 Scenarios.afterFirstClick)
     = [].
Proof.
  split.
  - exact (expiry_without_older_timers 0 [Scenarios.boxA]
             Scenarios.letterWidth Scenarios.letterHeight
             (Scenarios.loadedViewer 0) 7999 eq_refl).
  - exact (expiry_without_older_timers 0 [Scenarios.boxA]
             Scenarios.letterWidth Scenarios.letterHeight
             (Scenarios.loadedViewer 0) 8000 eq_refl).
Defined.

(** ** Bold text *)

Section BoldText.
Import ChatMessage.
Local Open Scope string_scope.

Implicit Types (s pre inner post close : string) (c : ascii).

Lemma inline_char_plain c : Markdown.inline_char c = true -> plain_char c = true.
Proof.
  unfold Markdown.inline_char. by intros [[-> _]%andb_true_iff _]%andb_true_iff.
Qed.

Lemma string_prefix_app p s : string_prefix p (p +:+ s) = true.
Proof.
  induction p as [|a p IH]; [done|]. rewrite str_app_cons. cbn.
  by rewrite Ascii.eqb_refl, IH.
Qed.

Lemma string_drop_app p s : string_drop (String.length p) (p +:+ s) = s.
Proof. induction p as [|a p IH]; [done|]. by rewrite str_app_cons. Qed.

Lemma lazy_until_cons close c s :
  lazy_until close (String c s)
  = if string_prefix close (String c s)
    then Some ("", string_drop (String.length close) (String c s))
    else if line_terminator_at (String c s) then None
         else match lazy_until close s with
              | Some (inner, rest) => Some (String c inner, rest)
              | None => None
              end.
Proof. reflexivity. Qed.

Lemma lazy_until_here close s :
  lazy_until close (close +:+ s) = Some ("", s).
Proof.
  destruct (close +:+ s) as [|b t] eqn:E.
  - destruct close; [|done]. rewrite str_app_nil_l in E. by subst.
  - rewrite lazy_until_cons, <- E, string_prefix_app, string_drop_app. done.
Qed.

Lemma string_prefix_other a close' c s :
  a <> c -> string_prefix (String a close') (String c s) = false.
Proof. intros Hne. cbn. by apply Ascii.eqb_neq in Hne as ->. Qed.

Lemma line_terminator_at_inline c s :
  Markdown.inline_char c = true -> line_terminator_at (String c s) = false.
Proof.
  intros Hc. unfold Markdown.inline_char, plain_char in Hc. cbn.
  destruct c as [[] [] [] [] [] [] [] []]; done.
Qed.

(** The lazy run stops at the first [close] when the text before it holds
    nothing [close] can start on and no line break. *)
Lemma lazy_until_found a close' inner post :
  plain_char a = false ->
  all_chars Markdown.inline_char inner = true ->
  lazy_until (String a close') (inner +:+ String a close' +:+ post)
  = Some (inner, post).
Proof.
  intros Ha. induction inner as [|c inner IH]; intros Hin.
  - rewrite str_app_nil_l. apply lazy_until_here.
  - cbn in Hin. apply andb_true_iff in Hin as [Hc Hin].
    rewrite str_app_cons, lazy_until_cons.
    rewrite string_prefix_other, line_terminator_at_inline, (IH Hin); try done.
    intros ->. apply inline_char_plain in Hc. congruence.
Qed.

(** Without anything [close] can start on, the lazy run finds nothing. *)
Lemma lazy_until_plain a close' s :
  plain_char a = false -> all_chars plain_char s = true ->
  lazy_until (String a close') s = None.
Proof.
  intros Ha. induction s as [|c s IH]; intros Hs; [done|].
  cbn in Hs. apply andb_true_iff in Hs as [Hc Hs].
  rewrite lazy_until_cons, string_prefix_other, (IH Hs)
    by (intros ->; congruence).
  by destruct (line_terminator_at (String c s)).
Qed.

Lemma string_drop_length n s :
  (String.length (string_drop n s) <= String.length s)%nat.
Proof.
  revert s. induction n as [|n IH]; intros [|b s]; cbn; try lia.
  specialize (IH s). lia.
Qed.

Lemma lazy_until_length close s inner rest :
  lazy_until close s = Some (inner, rest) ->
  (String.length rest <= String.length s)%nat.
Proof.
  revert inner rest. induction s as [|c s IH]; intros inner rest.
  - cbn. destruct (string_prefix close ""); [|done].
    intros [= <- <-]. apply string_drop_length.
  - rewrite lazy_until_cons.
    destruct (string_prefix close (String c s)).
    + intros [= <- <-]. apply string_drop_length.
    + destruct (line_terminator_at (String c s)); [done|].
      destruct (lazy_until close s) as [[i r]|]; [|done].
      intros [= <- <-]. specialize (IH _ _ eq_refl). cbn. lia.
Qed.

Lemma delimited_at_bold_shorter s inner rest :
  delimited_at "**" "**" s = Some (inner, rest) ->
  (String.length rest < String.length s)%nat.
Proof.
  unfold delimited_at. destruct (string_prefix "**" s) eqn:P; [|done].
  intros Hl%lazy_until_length.
  destruct s as [|a [|b s]]; cbn in P.
  - done.
  - by rewrite andb_false_r in P.
  - cbn in Hl |- *. lia.
Qed.

Lemma replace_bold_fuels fuel fuel' s :
  (String.length s <= fuel)%nat -> (String.length s <= fuel')%nat ->
  replace_bold fuel s = replace_bold fuel' s.
Proof.
  revert fuel' s. induction fuel as [|fuel IH]; intros [|fuel'] s Hs Hs';
    try (destruct s; cbn in *; (done || lia)).
  cbn [replace_bold].
  destruct (delimited_at "**" "**" s) as [[inner rest]|] eqn:E.
  - apply delimited_at_bold_shorter in E.
    by rewrite (IH fuel' rest) by lia.
  - destruct s as [|c s]; [done|]. cbn in Hs, Hs'.
    by rewrite (IH fuel' s) by lia.
Qed.

Lemma replace_bold_fuel fuel s :
  (String.length s <= fuel)%nat ->
  replace_bold fuel s = replace_bold (String.length s) s.
Proof. intros Hs. by apply replace_bold_fuels. Qed.

Lemma plain_no_asterisk c : plain_char c = true -> negb (c =? "*")%char = true.
Proof. unfold plain_char. by intros [-> _]%andb_true_iff. Qed.

(** Without an asterisk there is nothing to replace. *)
Lemma replace_bold_no_asterisk fuel s :
  all_chars (fun c => negb (c =? "*")%char) s = true -> replace_bold fuel s = s.
Proof.
  revert s. induction fuel as [|fuel IH]; intros s Hs; [done|].
  destruct s as [|c s]; [done|]. cbn in Hs.
  apply andb_true_iff in Hs as [Hc Hs]. cbn [replace_bold].
  assert (delimited_at "**" "**" (String c s) = None) as ->.
  { unfold delimited_at. cbn. destruct c as [[] [] [] [] [] [] [] []]; done. }
  by rewrite IH.
Qed.

Lemma replace_bold_skip fuel pre s :
  all_chars plain_char pre = true ->
  (String.length (pre +:+ s) <= fuel)%nat ->
  replace_bold fuel (pre +:+ s) = pre +:+ replace_bold (String.length s) s.
Proof.
  revert fuel. induction pre as [|c pre IH]; intros fuel Hpre Hf.
  - rewrite str_app_nil_l in *. by apply replace_bold_fuel.
  - cbn in Hpre. apply andb_true_iff in Hpre as [Hc Hpre].
    rewrite str_app_cons in *. destruct fuel as [|fuel]; [cbn in Hf; lia|].
    cbn [replace_bold].
    assert (delimited_at "**" "**" (String c (pre +:+ s)) = None) as ->.
    { unfold delimited_at. cbn. unfold plain_char in Hc.
      destruct c as [[] [] [] [] [] [] [] []]; done. }
    cbn in Hf. by rewrite IH by (done || lia).
Qed.

Lemma split_bold_skip fuel lit pre s :
  all_chars plain_char pre = true ->
  (String.length (pre +:+ s) < fuel)%nat ->
  split_loop bold_at fuel lit (pre +:+ s)
  = split_loop bold_at (fuel - String.length pre) (lit +:+ pre) s.
Proof.
  revert fuel lit. induction pre as [|c pre IH]; intros fuel lit Hpre Hf.
  - rewrite str_app_nil_l, str_app_nil_r. cbn. by rewrite Nat.sub_0_r.
  - cbn in Hpre. apply andb_true_iff in Hpre as [Hc Hpre].
    rewrite str_app_cons in *. destruct fuel as [|fuel]; [lia|].
    cbn [split_loop]. unfold bold_at at 1.
    assert (delimited_at bold_open bold_close (String c (pre +:+ s)) = None)
      as ->.
    { unfold delimited_at. cbn. unfold plain_char in Hc.
      destruct c as [[] [] [] [] [] [] [] []]; done. }
    cbn in Hf. rewrite IH by (done || lia). cbn [String.length Nat.sub].
    by rewrite str_app_assoc.
Qed.

Lemma delimited_at_found open close inner post :
  (exists b close', close = String b close' /\ plain_char b = false) ->
  all_chars Markdown.inline_char inner = true ->
  delimited_at open close (open +:+ inner +:+ close +:+ post)
  = Some (inner, post).
Proof.
  intros (b & close' & -> & Hb) Hin. unfold delimited_at.
  rewrite string_prefix_app, string_drop_app. by apply lazy_until_found.
Qed.

Lemma bold_close_unplain :
  exists b close', bold_close = String b close' /\ plain_char b = false.
Proof. by eexists _, _. Qed.

Lemma asterisks_unplain :
  exists b close', "**" = String b close' /\ plain_char b = false.
Proof. by eexists _, _. Qed.

Lemma boldMatch_found inner :
  all_chars Markdown.inline_char inner = true ->
  boldMatch (bold_open +:+ inner +:+ bold_close) = Some inner.
Proof.
  intros Hin.
  pose proof (delimited_at_found bold_open bold_close inner ""
                bold_close_unplain Hin) as Hd.
  rewrite str_app_nil_r in Hd.
  destruct (bold_open +:+ inner +:+ bold_close) as [|c t] eqn:E; [done|].
  cbn [boldMatch]. by rewrite Hd.
Qed.

(** What the renderer makes of text that holds one delimited run and is
    otherwise plain. *)
Lemma render_one_run (text pre inner post : string) :
  all_chars plain_char pre = true ->
  all_chars Markdown.inline_char inner = true ->
  all_chars plain_char post = true ->
  replace_bold (String.length text) text
  = pre +:+ bold_open +:+ inner +:+ bold_close +:+ post ->
  text <> "" ->
  renderBasicMarkdown text
  = Parts [PlainText pre; StrongText 1 inner; PlainText post].
Proof.
  intros Hpre Hin Hpost Hrep Hne. unfold renderBasicMarkdown.
  destruct text as [|c0 t0]; [done|]. rewrite Hrep. unfold split.
  set (rest := bold_open +:+ inner +:+ bold_close +:+ post).
  rewrite split_bold_skip by (done || lia).
  rewrite str_app_nil_l, str_length_app.
  replace (S (String.length pre + String.length rest) - String.length pre)%nat
    with (S (String.length rest)) by lia.
  cbn [split_loop]. unfold bold_at at 1.
  pose proof (delimited_at_found bold_open bold_close inner post
                bold_close_unplain Hin) as Hd.
  fold rest in Hd. rewrite Hd.
  rewrite split_bold_plain by done. rewrite str_app_nil_l.
  cbn [imap]. unfold compose. cbn beta.
  by rewrite (boldMatch_plain pre), (boldMatch_plain post), boldMatch_found.
Qed.

(** X12.  Text between two double asterisks on one line is rendered as a
    [<strong>] element and the asterisks are dropped, the text before and
    after staying plain: for text before, between and after that is free of
    asterisks and of characters encoded with the byte 226, the text between
    being on one line. *)
Theorem double_asterisks_render_strong pre inner post :
  all_chars plain_char pre = true ->
  all_chars Markdown.inline_char inner = true ->
  all_chars plain_char post = true ->
  renderBasicMarkdown (pre +:+ "**" +:+ inner +:+ "**" +:+ post)
  = Parts [PlainText pre; StrongText 1 inner; PlainText post].
Proof.
  intros Hpre Hin Hpost.
  apply render_one_run; try done.
  - rewrite replace_bold_skip by (done || lia). f_equal.
    set (s := "**" +:+ inner +:+ "**" +:+ post).
    assert (delimited_at "**" "**" s = Some (inner, post)) as Hd
      by (by apply delimited_at_found; [apply asterisks_unplain|]).
    destruct (String.length s) as [|n] eqn:En; [done|].
    cbn [replace_bold]. rewrite Hd.
    assert (String.length post <= n)%nat as Hn.
    { unfold s in En. rewrite !str_length_app in En. cbn in En. lia. }
    rewrite replace_bold_plain by done. done.
  - destruct pre; done.
Qed.

(** X13.  The two brackets the renderer uses internally are not escaped:
    text that already holds [⟨bold⟩...⟨/bold⟩], without any asterisk, is
    rendered exactly as if the run were between double asterisks, the
    brackets being dropped. *)
Theorem bold_brackets_in_text_render_strong pre inner post :
  all_chars plain_char pre = true ->
  all_chars Markdown.inline_char inner = true ->
  all_chars plain_char post = true ->
  renderBasicMarkdown (pre +:+ bold_open +:+ inner +:+ bold_close +:+ post)
  = Parts [PlainText pre; StrongText 1 inner; PlainText post].
Proof.
  intros Hpre Hin Hpost.
  apply render_one_run; try done.
  - apply replace_bold_no_asterisk.
    rewrite !all_chars_app, (all_chars_impl _ _ _ plain_no_asterisk Hpre).
    rewrite (all_chars_impl _ _ _ plain_no_asterisk Hpost).
    rewrite (all_chars_impl _ _ inner
               (fun c Hc => plain_no_asterisk c (inline_char_plain c Hc)) Hin).
    done.
  - destruct pre; done.
Qed.

End BoldText.

Lemma double_asterisks_render_strong_witness :
  ChatMessage.renderBasicMarkdown "a **b** c"
  = ChatMessage.Parts
      [ChatMessage.PlainText "a "; ChatMessage.StrongText 1 "b";
       ChatMessage.PlainText " c"].
Proof.
  exact (double_asterisks_render_strong "a " "b" " c" eq_refl eq_refl eq_refl).
Defined.

Lemma bold_brackets_in_text_render_strong_witness :
  ChatMessage.renderBasicMarkdown "a ⟨bold⟩b⟨/bold⟩ c"
  = ChatMessage.Parts
      [ChatMessage.PlainText "a "; ChatMessage.StrongText 1 "b";
       ChatMessage.PlainText " c"].
Proof.
  exact (bold_brackets_in_text_render_strong "a " "b" " c"
           eq_refl eq_refl eq_refl).
Defined.

(** ** Citation buttons *)

Section CitationButtons.
Context {C : Type}.
Import ChatMessage.
Local Open Scope string_scope.

Implicit Types (table : gmap string C) (message : Message C).

Lemma renderPart_button table index part key citation n :
  renderPart table index part = CitationButton key citation n <->
  key = index /\ part = marker_text n /\ is_digits n = true
  /\ table !! n = Some citation.
Proof.
  unfold renderPart. split.
  - destruct (citationMatch part) as [ds|] eqn:E; [|done].
    apply citationMatch_Some in E as [-> Hds].
    destruct (table !! ds) as [c|] eqn:Et; [|done].
    by intros [= <- <- <-].
  - intros (-> & -> & Hds & Ht). by rewrite citationMatch_marker, Ht.
Qed.

(** X14.  In an assistant message with a citation table there is one
    child per part of the split text, and the child at position [i] is a
    button exactly when part [i] is a marker [[n]] whose digits are a key of
    the table; the button then carries the table's citation for [n], the
    label [n] and the key [i]. *)
Theorem buttons_are_exactly_the_resolved_markers message table :
  citations message = Some table -> isUser message = false ->
  exists children,
    parsedContent message = TextBlock children
    /\ length children = length (split marker_at (content message))
    /\ (forall i key citation n,
          children !! i = Some (CitationButton key citation n) <->
          key = i
          /\ split marker_at (content message) !! i = Some (marker_text n)
          /\ is_digits n = true
          /\ table !! n = Some citation).
Proof.
  intros Ht Hu. eexists. unfold parsedContent. rewrite Hu, Ht.
  split; [done|]. split; [by rewrite length_imap|].
  intros i key citation n. rewrite list_lookup_imap.
  destruct (split marker_at (content message) !! i) as [part|]; cbn.
  - split.
    + intros [= (-> & -> & Hds & Hn)%renderPart_button]. done.
    + intros (-> & [= ->] & Hds & Hn). f_equal. by apply renderPart_button.
  - split; [done|]. by intros (_ & ? & _).
Qed.

Lemma renderPart_empty_table index part :
  exists body, renderPart (∅ : gmap string C) index part = TextSpan index body.
Proof.
  unfold renderPart. destruct (citationMatch part) as [ds|]; [|by eexists].
  rewrite lookup_empty. by eexists.
Qed.

Lemma imap_renderPart_empty_table parts child :
  child ∈ imap (renderPart (∅ : gmap string C)) parts ->
  exists key body, child = TextSpan key body.
Proof.
  intros (i & Hi)%list_elem_of_lookup. rewrite list_lookup_imap in Hi.
  destruct (parts !! i) as [part|]; [|done]. cbn in Hi. injection Hi as <-.
  destruct (renderPart_empty_table i part) as [body ->]. by eexists _, _.
Qed.

(** X15.  No button without a table entry: a user message and a message
    without citation table are shown as one paragraph holding the content
    unchanged, markers included, and with an empty table, as the hook's
    error messages have it, every child is a [<span>]. *)
Theorem no_button_without_table_entry message :
  (isUser message = true -> parsedContent message = Paragraph (content message))
  /\ (citations message = None ->
      parsedContent message = Paragraph (content message))
  /\ (citations message = Some ∅ -> isUser message = false ->
      exists children,
        parsedContent message = TextBlock children
        /\ forall child, child ∈ children ->
                         exists key body, child = TextSpan key body).
Proof.
  unfold parsedContent. split; [by intros ->|]. split.
  { intros ->. by destruct (isUser message). }
  intros -> ->. eexists. split; [done|].
  apply imap_renderPart_empty_table.
Qed.

End CitationButtons.

(** ** From a click to the highlight *)

Section ClickToHighlight.
Context {num : Type} `{JsNumber num}.

(** X16.  A click on the button rendered for marker [[n]] reaches the
    viewer with the table's citation for [n]: with a viewer mounted and at
    least one bounding box in the citation, the viewer afterwards shows
    exactly one highlight per box of that citation, on the citation's page
    and with its page size. *)
Theorem click_on_marker_highlights_its_citation
    (message : ChatMessage.Message (@App.Citation num))
    (table : gmap string (@App.Citation num))
    (i : nat) (n : string) (citation : @App.Citation num)
    (b : @PDFViewer.BoundingBox num) (bs : list (@PDFViewer.BoundingBox num))
    (w : @App.World num) (v : @PDFViewer.Viewer num) :
  ChatMessage.citations message = Some table ->
  ChatMessage.isUser message = false ->
  ChatMessage.split ChatMessage.marker_at (ChatMessage.content message) !! i
  = Some (ChatMessage.marker_text n) ->
  ChatMessage.is_digits n = true ->
  table !! n = Some citation ->
  App.bounding_boxes citation = Some (b :: bs) ->
  App.pdfViewerRef w = Some v ->
  let w' := Bridge.clickAt (ChatMessage.parsedContent message) i w in
  App.pdfViewerRef w'
  = Some (PDFViewer.highlightAndScroll (App.page citation) (b :: bs)
            (App.page_width citation) (App.page_height citation) v)
  /\ (exists v', App.pdfViewerRef w' = Some v'
        /\ PDFViewer.highlights v'
           = PDFViewer.newHighlights (PDFViewer.now v) (App.page citation)
               (b :: bs) (App.page_width citation) (App.page_height citation)).
Proof.
  intros Ht Hu Hpart Hds Hn Hb Hv w'.
  assert (App.pdfViewerRef w'
          = Some (PDFViewer.highlightAndScroll (App.page citation) (b :: bs)
                    (App.page_width citation) (App.page_height citation) v))
    as Hw.
  { unfold w', Bridge.clickAt, ChatMessage.parsedContent. rewrite Hu, Ht.
    rewrite list_lookup_imap, Hpart. cbn.
    unfold ChatMessage.renderPart.
    rewrite citationMatch_marker, Hn by done. cbn.
    unfold App.handleCitationClick. cbn. by rewrite Hv, Hb. }
  split; [done|]. eexists. split; [done|].
  apply highlights_highlightAndScroll.
Qed.

(** X17.  While no viewer is mounted a click on a citation, whatever its
    bounding boxes, only writes the log line, and no click on any child of
    a message brings a viewer about. *)
Theorem citation_click_without_viewer
    (citation : @App.Citation num) (w : @App.World num) :
  App.pdfViewerRef w = None ->
  App.handleCitationClick citation w
  = App.console_log "[App] Citation clicked:" w
  /\ (forall child, App.pdfViewerRef (Bridge.clickChild child w) = None).
Proof.
  intros Hv. unfold App.handleCitationClick. cbn. rewrite Hv.
  split; [done|]. intros [key c n|key body]; cbn; [|done].
  unfold App.handleCitationClick. cbn. by rewrite Hv.
Qed.

End ClickToHighlight.

Lemma buttons_are_exactly_the_resolved_markers_witness :
  exists children,
    ChatMessage.parsedContent Runs.answer = ChatMessage.TextBlock children
    /\ length children = 5%nat.
Proof.
  destruct (buttons_are_exactly_the_resolved_markers Runs.answer _
              eq_refl eq_refl) as (children & Hc & Hl & _).
  exists children. split; [exact Hc|exact Hl].
Defined.

Lemma click_on_marker_highlights_its_citation_witness :
  App.pdfViewerRef
    (Bridge.clickAt (ChatMessage.parsedContent Runs.answer) 1
       Runs.worldWithViewer)
  = Some (PDFViewer.highlightAndScroll 2 [Scenarios.boxA; Scenarios.boxB]
            Scenarios.letterWidth Scenarios.letterHeight
            (Scenarios.loadedViewer 0)).
Proof.
  exact (proj1 (click_on_marker_highlights_its_citation
                  Runs.answer _ 1 "1" Runs.citedTwice
                  Scenarios.boxA [Scenarios.boxB] Runs.worldWithViewer
                  (Scenarios.loadedViewer 0)
                  eq_refl eq_refl eq_refl eq_refl eq_refl eq_refl eq_refl)).
Defined.

Lemma citation_click_without_viewer_witness :
  App.handleCitationClick Runs.citedTwice (App.mkWorld [] None)
  = App.console_log "[App] Citation clicked:" (App.mkWorld [] None).
Proof.
  exact (proj1 (citation_click_without_viewer Runs.citedTwice
                  (App.mkWorld [] None) eq_refl)).
Defined.

(** ** Trimming *)

Section Trimming.
Import JsString.
Local Open Scope string_scope.

Implicit Types (s t u : string).

Lemma whitespace_at_le s : (whitespace_at s <= String.length s)%nat.
Proof.
  destruct s as [|a [|b [|c s]]]; cbn; try lia.
  - destruct (is_space1 a); lia.
  - destruct (is_space1 a); [lia|]. destruct (is_space2 a b); lia.
  - destruct (is_space1 a); [lia|]. destruct (is_space2 a b); [lia|].
    destruct (is_space3 a b c); lia.
Qed.

Lemma string_drop_length_eq n s :
  (n <= String.length s)%nat ->
  String.length (ChatMessage.string_drop n s) = (String.length s - n)%nat.
Proof.
  revert s. induction n as [|n IH]; intros [|a s]; cbn; try lia.
  intros Hn. apply IH. lia.
Qed.

(** What [trimStart] returns starts with no white space. *)
Lemma trimStart_loop_done fuel s :
  (String.length s <= fuel)%nat -> whitespace_at (trimStart_loop fuel s) = 0%nat.
Proof.
  revert s. induction fuel as [|fuel IH]; intros s Hs.
  - destruct s; [done|cbn in Hs; lia].
  - cbn [trimStart_loop]. destruct (whitespace_at s) as [|n] eqn:E; [done|].
    apply IH. pose proof (whitespace_at_le s).
    rewrite string_drop_length_eq by lia. lia.
Qed.

Lemma whitespace_at_trimStart s : whitespace_at (trimStart s) = 0%nat.
Proof. by apply trimStart_loop_done. Qed.

Lemma trimStart_loop_fixed fuel s :
  whitespace_at s = 0%nat -> trimStart_loop fuel s = s.
Proof. intros E. destruct fuel; [done|]. cbn. by rewrite E. Qed.

Lemma trimStart_fixed s : whitespace_at s = 0%nat -> trimStart s = s.
Proof. apply trimStart_loop_fixed. Qed.

(** A string that starts with white space still does when text follows. *)
Lemma whitespace_at_app s t :
  whitespace_at s <> 0%nat -> whitespace_at (s +:+ t) = whitespace_at s.
Proof.
  destruct s as [|a [|b [|c s]]];
    rewrite ?str_app_cons, ?str_app_nil_l; cbn; try done.
  - by destruct (is_space1 a).
  - destruct (is_space1 a); [done|]. by destruct (is_space2 a b).
Qed.

Lemma trimEnd_prefix s : exists r, s = trimEnd s +:+ r.
Proof.
  induction s as [|c s [r IH]]; [by exists ""|].
  cbn [trimEnd]. destruct (is_blank (String c s)).
  - by exists (String c s).
  - exists r. by rewrite str_app_cons, <- IH.
Qed.

Lemma trimEnd_empty s : trimEnd s = "" -> s = "" \/ is_blank s = true.
Proof.
  destruct s as [|c s]; [by left|]. cbn [trimEnd].
  destruct (is_blank (String c s)); [by right|done].
Qed.

Lemma is_blank_true s : is_blank s = true <-> trimStart s = "".
Proof. unfold is_blank. apply String.eqb_eq. Qed.

(** Trimming leaves nothing exactly when the string is blank. *)
Lemma trim_empty s : trim s = "" <-> is_blank s = true.
Proof.
  unfold trim. rewrite is_blank_true. split.
  - intros [E|E]%trimEnd_empty; [done|].
    apply is_blank_true in E.
    by rewrite trimStart_fixed in E by apply whitespace_at_trimStart.
  - by intros ->.
Qed.

(** What trimming returns starts with no white space. *)
Lemma whitespace_at_trim s : whitespace_at (trim s) = 0%nat.
Proof.
  unfold trim. destruct (trimEnd_prefix (trimStart s)) as [r Hr].
  pose proof (whitespace_at_trimStart s) as Hw. rewrite Hr in Hw.
  destruct (whitespace_at (trimEnd (trimStart s))) as [|n] eqn:E; [done|].
  rewrite whitespace_at_app in Hw by (rewrite E; done). congruence.
Qed.

(** A trimmed string that is not empty is not blank: trimming it again
    leaves something. *)
Lemma trim_not_blank s : trim s <> "" -> is_blank (trim s) = false.
Proof.
  intros Hne. apply not_true_iff_false. intros E%is_blank_true.
  rewrite trimStart_fixed in E by apply whitespace_at_trim. done.
Qed.

Lemma truthy_true s : truthy s = true <-> s <> "".
Proof.
  unfold truthy. rewrite negb_true_iff. apply String.eqb_neq.
Qed.

End Trimming.

(** ** Sending a question *)

Section SendingQuestions.
Context {C : Type}.
Import UseChat.
Local Open Scope string_scope.

Implicit Types (h : Hook C) (input question apiKey : string)
  (fileId : option string).

Lemma trim_truthy input :
  JsString.truthy (JsString.trim input) = negb (JsString.is_blank input).
Proof.
  destruct (JsString.is_blank input) eqn:E.
  - apply trim_empty in E. by rewrite E.
  - apply truthy_true. intros Ht%trim_empty. congruence.
Qed.

(** X18.  The chat input sends nothing while it is blank (only white
    space) or while an answer is awaited, and then keeps the input as it
    is; otherwise it sends the input trimmed, which is not empty and neither
    starts with white space nor is blank, and empties the input field.  A
    key other than Enter, and Enter with Shift, submit nothing. *)
Theorem chat_input_sends_trimmed_text_only input (loading : bool) :
  (JsString.is_blank input = true \/ loading = true ->
   ChatPanel.handleSubmit input loading = (None, input))
  /\ (JsString.is_blank input = false -> loading = false ->
      ChatPanel.handleSubmit input loading = (Some (JsString.trim input), "")
      /\ JsString.trim input <> ""
      /\ JsString.whitespace_at (JsString.trim input) = 0%nat
      /\ JsString.is_blank (JsString.trim input) = false)
  /\ (forall key (shiftKey : bool),
        key <> "Enter" \/ shiftKey = true ->
        ChatPanel.handleKeyDown key shiftKey input loading
        = (false, (None, input)))
  /\ ChatPanel.handleKeyDown "Enter" false input loading
     = (true, ChatPanel.handleSubmit input loading).
Proof.
  split; [|split; [|split]].
  - unfold ChatPanel.handleSubmit. rewrite trim_truthy.
    intros [-> | ->]; [done|]. by rewrite andb_false_r.
  - unfold ChatPanel.handleSubmit. rewrite trim_truthy.
    intros Hb ->. rewrite Hb. split; [done|].
    assert (JsString.trim input <> "") as Hne.
    { intros E%trim_empty. congruence. }
    split; [done|]. split; [apply whitespace_at_trim|by apply trim_not_blank].
  - intros key shiftKey Hk. unfold ChatPanel.handleKeyDown.
    destruct Hk as [Hk%String.eqb_neq | ->]; [by rewrite Hk|].
    by rewrite andb_false_r.
  - done.
Qed.

(** X19.  [sendMessage] does nothing at all, adding no message and making
    no request, when the question is blank, when no document or no API key
    is given, or while an answer is awaited; in particular a second question
    sent before the first one is answered is dropped. *)
Theorem send_is_ignored_unless_ready fileId apiKey question (t : Z) h :
  (JsString.is_blank question = true \/ fileId = None \/ fileId = Some ""
   \/ apiKey = "" \/ isLoading h = true ->
   sendStart fileId apiKey question t h = (h, None))
  /\ (forall fileId' apiKey' question' t',
        snd (sendStart fileId apiKey question t h) <> None ->
        sendStart fileId' apiKey' question' t'
          (fst (sendStart fileId apiKey question t h))
        = (fst (sendStart fileId apiKey question t h), None)).
Proof.
  unfold sendStart. rewrite trim_truthy, negb_involutive. split.
  - intros [-> | [-> | [-> | [-> | ->]]]]; cbn; rewrite ?orb_true_r; done.
  - intros fileId' apiKey' question' t'.
    destruct (JsString.is_blank question || negb (fileId_given fileId)
              || negb (JsString.truthy apiKey) || isLoading h); [done|].
    intros _. cbn. by rewrite orb_true_r.
Qed.

(** X20.  A question that is sent and settles adds exactly two messages
    to the list, the user's question as typed and then the reply, and
    leaves the hook not loading, whether the request succeeds or fails.  A
    failure sets the error and replies with an error message whose text is
    [Error: ] followed by the error's message, with an empty citation
    table.  The reply's id is one more than the time at which the request
    settled, so that it differs from the question's id. *)
Theorem question_and_reply_are_appended
    (f : string) apiKey question (t1 t2 : Z) (outcome : QueryResult C) h :
  JsString.is_blank question = false -> f <> "" -> apiKey <> "" ->
  isLoading h = false -> t1 <= t2 ->
  let (h1, request) := sendStart (Some f) apiKey question t1 h in
  let h2 := sendSettled outcome t2 h1 in
  request = Some (mkRequest question f apiKey)
  /\ isLoading h1 = true
  /\ isLoading h2 = false
  /\ (exists reply,
        messages h2
        = (messages h ++ [mkEntry t1 (userMessage question) t1;
                          mkEntry (t2 + 1) reply t2])%list
        /\ t1 <> t2 + 1
        /\ match outcome with
           | Answered answer citations =>
               reply = aiMessage answer citations /\ error h2 = None
           | Failed text =>
               reply = errorMessage text /\ error h2 = Some text
               /\ ChatMessage.content reply = "Error: " +:+ text
               /\ ChatMessage.citations reply = Some ∅
               /\ ChatMessage.isError reply = true
           end).
Proof.
  intros Hq Hf Hk Hl Ht. unfold sendStart.
  rewrite trim_truthy, Hq, Hl. cbn.
  apply truthy_true in Hf as ->. apply truthy_true in Hk as ->. cbn.
  split; [done|]. split; [done|].
  destruct outcome as [answer citations|text]; cbn.
  - split; [done|]. eexists. rewrite <- app_assoc. split; [done|].
    split; [lia|done].
  - split; [done|]. eexists. rewrite <- app_assoc. split; [done|].
    split; [lia|done].
Qed.

(** X21.  [clearChat] empties the list and the error but cancels nothing:
    a request that is pending stays pending, and when it settles its reply
    is appended to the emptied list, where it stands alone. *)
Theorem clearChat_keeps_pending_request (outcome : QueryResult C) (t : Z) h :
  messages (clearChat h) = []
  /\ error (clearChat h) = None
  /\ isLoading (clearChat h) = isLoading h
  /\ length (messages (sendSettled outcome t (clearChat h))) = 1%nat
  /\ isLoading (sendSettled outcome t (clearChat h)) = false.
Proof. by destruct outcome. Qed.

(** X22.  What the chat input sends always passes the hook's own blank
    test: with a document and an API key given and no answer awaited, the
    question sent by [handleSubmit] is the one requested from the
    backend. *)
Theorem submitted_question_reaches_the_backend
    input (f : string) apiKey (t : Z) h sent input' :
  ChatPanel.handleSubmit input (isLoading h) = (Some sent, input') ->
  f <> "" -> apiKey <> "" ->
  snd (sendStart (Some f) apiKey sent t h) = Some (mkRequest sent f apiKey).
Proof.
  unfold ChatPanel.handleSubmit. rewrite trim_truthy.
  destruct (JsString.is_blank input) eqn:Hb; [done|].
  destruct (isLoading h) eqn:Hl; [done|]. cbn.
  intros [= <- <-] Hf Hk. unfold sendStart.
  rewrite trim_truthy, trim_not_blank, Hl.
  - cbn. apply truthy_true in Hf as ->. by apply truthy_true in Hk as ->.
  - intros E%trim_empty. congruence.
Qed.

(** X23.  The reply to a failed request never shows a citation button,
    whatever the error text holds: its table is empty, so every part of it,
    markers included, is rendered as a [<span>]. *)
Theorem error_reply_has_no_button (text : string) :
  exists children,
    ChatMessage.parsedContent (errorMessage (Citation:=C) text)
    = ChatMessage.TextBlock children
    /\ forall child, child ∈ children ->
                     exists key body, child = ChatMessage.TextSpan key body.
Proof.
  eexists. split; [reflexivity|]. apply imap_renderPart_empty_table.
Qed.

End SendingQuestions.

(** ** The API key form *)

Section KeyForm.
Import ApiKeyForm.
Local Open Scope string_scope.

Lemma formStep_key e s :
  apiKey s = "" \/ JsString.is_blank (apiKey s) = false
                   /\ JsString.whitespace_at (apiKey s) = 0%nat ->
  apiKey (formStep e s) = ""
  \/ JsString.is_blank (apiKey (formStep e s)) = false
     /\ JsString.whitespace_at (apiKey (formStep e s)) = 0%nat.
Proof.
  intros Hs. destruct e as [value|]; cbn; [done|].
  unfold handleApiKeySubmit.
  destruct (JsString.truthy (JsString.trim (tempApiKey s))) eqn:E; [|done].
  right. cbn. apply truthy_true in E.
  split; [by apply trim_not_blank|apply whitespace_at_trim].
Qed.

Lemma formSteps_key events s0 :
  apiKey s0 = "" \/ JsString.is_blank (apiKey s0) = false
                    /\ JsString.whitespace_at (apiKey s0) = 0%nat ->
  apiKey (foldl (fun s e => formStep e s) s0 events) = ""
  \/ JsString.is_blank (apiKey (foldl (fun s e => formStep e s) s0 events))
     = false
     /\ JsString.whitespace_at
          (apiKey (foldl (fun s e => formStep e s) s0 events)) = 0%nat.
Proof.
  revert s0. induction events as [|e es IH]; intros s0 H0; [done|].
  cbn. apply IH, formStep_key, H0.
Qed.

(** X24.  Whatever is typed and submitted in the API key form, the stored
    key is either still empty, the key prompt being shown, or a key that is
    not blank and does not start with white space, the prompt being gone: a
    blank key never gets past the prompt. *)
Theorem api_key_is_never_blank (events : list FormEvent) :
  let s := foldl (fun s e => formStep e s) initialState events in
  (apiKey s = "" /\ showsKeyPrompt s = true)
  \/ (JsString.is_blank (apiKey s) = false
      /\ JsString.whitespace_at (apiKey s) = 0%nat
      /\ showsKeyPrompt s = false).
Proof.
  intros s.
  destruct (formSteps_key events initialState (or_introl eq_refl))
    as [E|[Hb Hw]]; fold s in E || fold s in Hb, Hw.
  - left. split; [done|]. unfold showsKeyPrompt. by rewrite E.
  - right. split; [done|]. split; [done|]. unfold showsKeyPrompt.
    apply negb_false_iff, truthy_true. intros E. rewrite E in Hb. done.
Qed.

End KeyForm.

Lemma run_keeps_timers_in_order_witness :
  0 <= PDFViewer.now Scenarios.afterSecondClick
  /\ Timing.firingOrder (PDFViewer.timers Scenarios.afterSecondClick).
Proof.
  pose proof (run_keeps_timers_in_order (Scenarios.loadedViewer 0)
                Runs.twoClicks eq_refl eq_refl) as (Hnow & Horder & _).
  split; [exact Hnow | exact Horder].
Defined.

Lemma highlights_gone_within_8_seconds_witness :
  PDFViewer.highlights (PDFViewer.advanceTo 13000 Scenarios.afterSecondClick)
  = []
  /\ PDFViewer.timers (PDFViewer.advanceTo 13000 Scenarios.afterSecondClick)
     = [].
Proof.
  apply (highlights_gone_within_8_seconds (Scenarios.loadedViewer 0)
           Runs.twoClicks 13000 eq_refl eq_refl).
  vm_compute. discriminate.
Defined.

Lemma question_and_reply_are_appended_witness :
  UseChat.isLoading
    (UseChat.sendSettled (UseChat.Failed "timeout") 2500
       (fst (UseChat.sendStart (Some "doc1"%string) "key" " What? " 1000
               (UseChat.initialHook (Citation:=nat)))))
  = false.
Proof.
  pose proof (question_and_reply_are_appended (C:=nat) "doc1" "key" " What? "
                1000 2500 (UseChat.Failed "timeout") UseChat.initialHook
                eq_refl ltac:(discriminate) ltac:(discriminate) eq_refl
                ltac:(discriminate)) as Hw.
  destruct (UseChat.sendStart (Some "doc1"%string) "key" " What? " 1000
              (UseChat.initialHook (Citation:=nat))) as [h1 request].
  exact (proj1 (proj2 (proj2 Hw))).
Defined.

Lemma submitted_question_reaches_the_backend_witness :
  snd (UseChat.sendStart (Some "doc1"%string) "key" "What?" 1000
         (UseChat.initialHook (Citation:=nat)))
  = Some (UseChat.mkRequest "What?" "doc1" "key").
Proof.
  exact (submitted_question_reaches_the_backend (C:=nat) " What? " "doc1"
           "key" 1000 UseChat.initialHook "What?" "" eq_refl
           ltac:(discriminate) ltac:(discriminate)).
Defined.

(** ** Requests and uploads *)

Section RequestsAndUploads.
Local Open Scope string_scope.

(** X25.  [uploadPDF] and [queryPDF] resolve only for an [ok] response
    whose body can be read, and then with the value of the body.  For a
    response that is not [ok] each rejects with the body's [detail] when
    that is a string that is not empty, and with its own fixed text,
    "Upload failed" for [uploadPDF] and "Query failed" for [queryPDF], when
    the detail is missing, falsy or the empty string; in these cases the
    message of the rejection is never empty. *)
Theorem error_response_message {A : Type} :
  (forall (r : Api.Fetched A) value,
     Api.uploadPDF r = Api.Resolved value
     <-> r = Api.OkResponse (Api.Json value))
  /\ (forall (r : Api.Fetched A) value,
        Api.queryPDF r = Api.Resolved value
        <-> r = Api.OkResponse (Api.Json value))
  /\ (forall s, s <> "" ->
        Api.uploadPDF (A:=A) (Api.ErrorResponse (Api.Json (Api.DetailString s)))
        = Api.Rejected s
        /\ Api.queryPDF (A:=A)
             (Api.ErrorResponse (Api.Json (Api.DetailString s)))
           = Api.Rejected s)
  /\ (forall d, d = Api.DetailFalsy \/ d = Api.DetailString "" ->
        Api.uploadPDF (A:=A) (Api.ErrorResponse (Api.Json d))
        = Api.Rejected "Upload failed"
        /\ Api.queryPDF (A:=A) (Api.ErrorResponse (Api.Json d))
           = Api.Rejected "Query failed")
  /\ (forall d message,
        (d = Api.DetailFalsy \/ exists s, d = Api.DetailString s) ->
        Api.uploadPDF (A:=A) (Api.ErrorResponse (Api.Json d))
        = Api.Rejected message
        \/ Api.queryPDF (A:=A) (Api.ErrorResponse (Api.Json d))
           = Api.Rejected message ->
        message <> "").
Proof.
  split; [|split; [|split; [|split]]].
  - intros r value. split.
    + destruct r as [m|[m|v]|[m|d]]; cbn; try done. by intros [= ->].
    + by intros ->.
  - intros r value. split.
    + destruct r as [m|[m|v]|[m|d]]; cbn; try done. by intros [= ->].
    + by intros ->.
  - intros s Hs%truthy_true. cbn. by rewrite Hs.
  - by intros d [->| ->].
  - intros d message [->|[s ->]]; cbn.
    + by intros [[= <-]|[= <-]].
    + destruct (JsString.truthy s) eqn:E;
        intros [[= <-]|[= <-]]; try done; by apply truthy_true.
Qed.

Implicit Types (s t base ext fileName : string).

Lemma toLowerCase_app s t :
  FileUpload.toLowerCase (s +:+ t)
  = FileUpload.toLowerCase s +:+ FileUpload.toLowerCase t.
Proof.
  induction s as [|c s IH]; [done|].
  rewrite str_app_cons. cbn. by rewrite IH, str_app_cons.
Qed.

Lemma toLowerCase_length s :
  String.length (FileUpload.toLowerCase s) = String.length s.
Proof. induction s as [|c s IH]; [done|]. cbn. by rewrite IH. Qed.

Lemma string_drop_app_length s t :
  ChatMessage.string_drop (String.length s) (s +:+ t) = t.
Proof. induction s as [|c s IH]; [done|]. by rewrite str_app_cons. Qed.

Lemma endsWith_app s suffix : FileUpload.endsWith (s +:+ suffix) suffix = true.
Proof.
  unfold FileUpload.endsWith. rewrite str_length_app.
  replace (String.length s + String.length suffix - String.length suffix)%nat
    with (String.length s) by lia.
  rewrite string_drop_app_length, String.eqb_refl.
  rewrite andb_true_r. apply Nat.leb_le. lia.
Qed.

Lemma string_take_drop n s :
  s = String.substring 0 n s +:+ ChatMessage.string_drop n s.
Proof.
  revert s. induction n as [|n IH]; intros [|c s]; cbn; try done.
  by rewrite str_app_cons, <- IH.
Qed.

Lemma toLowerCase_drop n s :
  FileUpload.toLowerCase (ChatMessage.string_drop n s)
  = ChatMessage.string_drop n (FileUpload.toLowerCase s).
Proof. revert s. induction n as [|n IH]; intros [|c s]; cbn; done. Qed.

(** X26.  The upload accepts exactly the file names whose end is [.pdf]
    in any mix of upper and lower case: every name made of any text
    followed by such an ending passes, and every name that passes is made
    that way. *)
Theorem pdf_names_are_those_ending_in_pdf :
  (forall base ext,
     FileUpload.toLowerCase ext = ".pdf" ->
     FileUpload.isPdfName (base +:+ ext) = true)
  /\ (forall fileName,
        FileUpload.isPdfName fileName = true ->
        exists base ext,
          fileName = base +:+ ext /\ String.length ext = 4%nat
          /\ FileUpload.toLowerCase ext = ".pdf").
Proof.
  split.
  - intros base ext Hext. unfold FileUpload.isPdfName.
    rewrite toLowerCase_app, Hext. apply endsWith_app.
  - intros fileName. unfold FileUpload.isPdfName, FileUpload.endsWith.
    rewrite toLowerCase_length.
    intros [Hlen%Nat.leb_le Heq%String.eqb_eq]%andb_true_iff.
    cbn in Hlen. change (String.length ".pdf") with 4%nat in Heq.
    rewrite <- toLowerCase_drop in Heq.
    exists (String.substring 0 (String.length fileName - 4) fileName),
           (ChatMessage.string_drop (String.length fileName - 4) fileName).
    split; [apply string_take_drop|]. split; [|done].
    rewrite string_drop_length_eq by lia. lia.
Qed.

Lemma handleFile_cases {R : Type} (file : FileUpload.File)
    (attempt : FileUpload.Attempt R) :
  (FileUpload.isPdfName (FileUpload.name file) = false
   /\ FileUpload.handleFile file attempt
      = [FileUpload.Alert "Please upload a PDF file."])
  \/ (FileUpload.isPdfName (FileUpload.name file) = true
      /\ FileUpload.maxSize < FileUpload.size file
      /\ FileUpload.handleFile file attempt
         = [FileUpload.Alert "File too large. Please upload a PDF under 50MB."])
  \/ (FileUpload.isPdfName (FileUpload.name file) = true
      /\ FileUpload.size file <= FileUpload.maxSize
      /\ exists rest,
           FileUpload.handleFile file attempt
           = FileUpload.SetUploadProgress "Uploading..." :: rest
           /\ rest = match attempt with
                     | FileUpload.ImportFailed message =>
                         [FileUpload.SetUploadProgress "";
                          FileUpload.Alert ("Upload failed: " +:+ message)]
                     | FileUpload.Uploaded (Api.Rejected message) =>
                         [FileUpload.SetUploadProgress
                            "Processing PDF (extracting text & coordinates)...";
                          FileUpload.UploadPDF file;
                          FileUpload.SetUploadProgress "";
                          FileUpload.Alert ("Upload failed: " +:+ message)]
                     | FileUpload.Uploaded (Api.Resolved result) =>
                         [FileUpload.SetUploadProgress
                            "Processing PDF (extracting text & coordinates)...";
                          FileUpload.UploadPDF file;
                          FileUpload.SetUploadProgress "Generating embeddings...";
                          FileUpload.Delay 500;
                          FileUpload.SetUploadProgress "";
                          FileUpload.OnUploadComplete result]
                     end).
Proof.
  unfold FileUpload.handleFile.
  destruct (FileUpload.isPdfName (FileUpload.name file)); cbn; [|by left].
  right. destruct (FileUpload.size file >? FileUpload.maxSize) eqn:E.
  - left. apply Z.gtb_lt in E. done.
  - right. split; [done|]. split; [|by eexists].
    rewrite Z.gtb_ltb in E. apply Z.ltb_ge in E. done.
Qed.

(** X27.  [handleFile] uploads a file only if its name ends in [.pdf] and
    its size is at most 52428800 bytes, the name being tested first; it
    calls [onUploadComplete] with the result exactly when such a file was
    uploaded and the upload resolved; every call ends in exactly one of the
    two, an alert or [onUploadComplete]; and whenever the progress text was
    set it is left empty. *)
Theorem handleFile_completes_only_valid_uploads {R : Type}
    (file : FileUpload.File) (attempt : FileUpload.Attempt R) :
  let es := FileUpload.handleFile file attempt in
  (FileUpload.UploadPDF file ∈ es ->
   FileUpload.isPdfName (FileUpload.name file) = true
   /\ FileUpload.size file <= 52428800)
  /\ (forall result,
        FileUpload.OnUploadComplete result ∈ es
        <-> FileUpload.isPdfName (FileUpload.name file) = true
            /\ FileUpload.size file <= 52428800
            /\ attempt = FileUpload.Uploaded (Api.Resolved result))
  /\ (length (List.filter FileUpload.isAlert es)
      + length (List.filter FileUpload.isCompletion es) = 1)%nat
  /\ (FileUpload.lastProgress es = None
      \/ FileUpload.lastProgress es = Some "")
  /\ (FileUpload.isPdfName (FileUpload.name file) = false ->
      es = [FileUpload.Alert "Please upload a PDF file."]).
Proof.
  intros es.
  destruct (handleFile_cases file attempt)
    as [[Hn He]|[(Hn & Hs & He)|(Hn & Hs & rest & He & Hrest)]];
    fold es in He; rewrite He; clear He es.
  - rewrite Hn. split; [|split; [|split; [|split]]]; try done.
    + by intros [[=]|[]%elem_of_nil]%elem_of_cons.
    + intros result. split; [|by intros ([=] & _)].
      by intros [[=]|[]%elem_of_nil]%elem_of_cons.
    + by left.
  - rewrite Hn. split; [|split; [|split; [|split]]]; try done.
    + by intros [[=]|[]%elem_of_nil]%elem_of_cons.
    + intros result. split.
      * by intros [[=]|[]%elem_of_nil]%elem_of_cons.
      * intros (_ & Hle & _). unfold FileUpload.maxSize in Hs. lia.
    + by left.
  - rewrite Hn. unfold FileUpload.maxSize in Hs.
    split; [done|]. subst rest.
    destruct attempt as [message|[result0|message]].
    + split; [|split; [|split]]; try done; [|by right].
      intros result. split; [|by intros (_ & _ & [=])].
      rewrite !elem_of_cons, elem_of_nil. intros [[=]|[[=]|[[=]|[]]]].
    + split; [|split; [|split]]; try done; [|by right].
      intros result. split.
      * rewrite !elem_of_cons, elem_of_nil.
        intros [[=]|[[=]|[[=]|[[=]|[[=]|[[=]|[[= ->]|[]]]]]]]]. done.
      * intros (_ & _ & [= ->]). rewrite !elem_of_cons. tauto.
    + split; [|split; [|split]]; try done; [|by right].
      intros result. split; [|by intros (_ & _ & [=])].
      rewrite !elem_of_cons, elem_of_nil.
      intros [[=]|[[=]|[[=]|[[=]|[[=]|[]]]]]].
Qed.

End RequestsAndUploads.
